(** * Network packet tracing: bundling, field fill and session setup

    A shallow embedding of
    [service-t/native/libs/libnetworkstats/NetworkTraceHandler.cpp] and of
    [getSocketCookie] from [staticlibs/native/bpf_headers/include/bpf/BpfUtils.h].

    Fixed-width C++ integers are values of [Z] together with the reduction
    that the C++ arithmetic performs; the protobuf builders are records of
    optional fields; the trace context is the sequence of packets that have
    been acquired with [NewTracePacket]. *)

From Stdlib Require Import ZArith List Bool String Lia Permutation.
Import ListNotations.
Local Open Scope Z_scope.

(** ** Machine integers *)

Definition wrap (bits : Z) (x : Z) : Z := x mod 2 ^ bits.
Definition wrap32 : Z -> Z := wrap 32.
Definition wrap64 : Z -> Z := wrap 64.

Definition in_range (bits : Z) (x : Z) : Prop := 0 <= x < 2 ^ bits.

(** [std::numeric_limits<uint64_t>::max()] and [::min()]. *)
Definition uint64_max : Z := 2 ^ 64 - 1.
Definition uint64_min : Z := 0.

(** [int] is 32 bits, two's complement. *)
Definition wrap_int (x : Z) : Z := (x + 2 ^ 31) mod 2 ^ 32 - 2 ^ 31.

(** [ntohs] on a little-endian host: the two bytes of a 16-bit value are
    exchanged. *)
Definition ntohs (x : Z) : Z :=
  Z.lor (Z.shiftl (Z.land x 255) 8) (Z.land (Z.shiftr x 8) 255).

(** ** PacketTrace *)

Module PacketTrace.
(** Modelled from the spec: the declaration of [PacketTrace] lives in a
    header outside the sources at hand; the fields and their widths are the
    ones of the data model ([timestampNs : u64], [length], [ifindex], [uid],
    [tag] : u32, [sport], [dport] : u16 in network byte order,
    [egress : bool], [ipProto], [tcpFlags] : u8). *)
Record t : Type := mk {
  timestampNs : Z;
  ifindex : Z;
  length : Z;
  uid : Z;
  tag : Z;
  sport : Z;
  dport : Z;
  egress : bool;
  ipProto : Z;
  tcpFlags : Z
}.

(** Every field holds a value of its C++ type. *)
Definition wf (p : t) : Prop :=
  in_range 64 (timestampNs p) /\ in_range 32 (ifindex p) /\
  in_range 32 (length p) /\ in_range 32 (uid p) /\ in_range 32 (tag p) /\
  in_range 16 (sport p) /\ in_range 16 (dport p) /\
  in_range 8 (ipProto p) /\ in_range 8 (tcpFlags p).
End PacketTrace.

Abbreviation PacketTrace := PacketTrace.t.

(** Keys are PacketTraces where timestamp and length are ignored. *)
Definition BundleKey : Type := PacketTrace.

(** The tuple built by [std::tie(AGG_FIELDS(x))]. *)
Definition AGG_TUPLE : Type := (Z * Z * Z * Z * Z * bool * Z * Z)%type.

Definition AGG_FIELDS (x : PacketTrace) : AGG_TUPLE :=
  (PacketTrace.ifindex x, PacketTrace.uid x, PacketTrace.tag x,
   PacketTrace.sport x, PacketTrace.dport x, PacketTrace.egress x,
   PacketTrace.ipProto x, PacketTrace.tcpFlags x).

(** [operator==] on two such tuples: the conjunction of the eight field
    comparisons. *)
Definition tuple_eqb (a b : AGG_TUPLE) : bool :=
  let '(i1, u1, t1, s1, d1, e1, p1, f1) := a in
  let '(i2, u2, t2, s2, d2, e2, p2, f2) := b in
  (i1 =? i2) && (u1 =? u2) && (t1 =? t2) && (s1 =? s2) && (d1 =? d2) &&
  Bool.eqb e1 e2 && (p1 =? p2) && (f1 =? f2).

Definition BundleEq (a b : BundleKey) : bool :=
  tuple_eqb (AGG_FIELDS a) (AGG_FIELDS b).

(** ** Hashing *)

(** [std::hash<T>] for the four field types met in [AGG_FIELDS], and the
    width of [std::size_t]; both belong to the C++ implementation. *)
Record StdHash : Type := {
  size_bits : Z;
  hash_u32 : Z -> Z;
  hash_u16 : Z -> Z;
  hash_u8 : Z -> Z;
  hash_bool : bool -> Z
}.

Section Hashing.
Variable H : StdHash.

Definition wrap_size : Z -> Z := wrap (size_bits H).

(** One step of [HashCombine]:
    [seed ^= std::hash<T>()(val) + 0x9e3779b9 + (seed << 6) + (seed >> 2)],
    given the already hashed value. *)
Definition HashCombine (seed : Z) (hashed : Z) : Z :=
  Z.lxor seed
    (wrap_size (hashed + 0x9e3779b9 + wrap_size (Z.shiftl seed 6)
                + Z.shiftr seed 2)).

(** The fold of [HashCombine] over [AGG_FIELDS(a)], from seed 0. *)
Definition BundleHash (a : BundleKey) : Z :=
  let seed := 0 in
  let seed := HashCombine seed (wrap_size (hash_u32 H (PacketTrace.ifindex a))) in
  let seed := HashCombine seed (wrap_size (hash_u32 H (PacketTrace.uid a))) in
  let seed := HashCombine seed (wrap_size (hash_u32 H (PacketTrace.tag a))) in
  let seed := HashCombine seed (wrap_size (hash_u16 H (PacketTrace.sport a))) in
  let seed := HashCombine seed (wrap_size (hash_u16 H (PacketTrace.dport a))) in
  let seed := HashCombine seed (wrap_size (hash_bool H (PacketTrace.egress a))) in
  let seed := HashCombine seed (wrap_size (hash_u8 H (PacketTrace.ipProto a))) in
  let seed := HashCombine seed (wrap_size (hash_u8 H (PacketTrace.tcpFlags a))) in
  seed.
End Hashing.

(** ** BundleDetails and the accumulation loop *)

(** Details summarises the timestamp and lengths of packets in a bundle. *)
Record BundleDetails : Type := {
  time_and_len : list (Z * Z);
  minTs : Z;
  maxTs : Z;
  bytes : Z
}.

(** A default-constructed [BundleDetails]. *)
Definition BundleDetails_init : BundleDetails :=
  {| time_and_len := []; minTs := uint64_max; maxTs := uint64_min; bytes := 0 |}.

(** The body of the first loop of [Write], applied to the bundle of [pkt]. *)
Definition add_packet (bundle : BundleDetails) (pkt : PacketTrace) : BundleDetails :=
  {| time_and_len :=
       time_and_len bundle ++ [(PacketTrace.timestampNs pkt, PacketTrace.length pkt)];
     minTs := Z.min (minTs bundle) (PacketTrace.timestampNs pkt);
     maxTs := Z.max (maxTs bundle) (PacketTrace.timestampNs pkt);
     bytes := wrap32 (bytes bundle + PacketTrace.length pkt) |}.

(** [std::unordered_map<BundleKey, BundleDetails, BundleHash, BundleEq>]:
    the entries, each key being the first packet that created the entry.
    Lookup goes through [BundleEq]. *)
Definition Bundles : Type := list (BundleKey * BundleDetails).

(** [bundles[pkt]] followed by the update of the entry: the entry whose key
    is [BundleEq]-equal to [pkt] is updated, and a fresh entry keyed by
    [pkt] is created when there is none. *)
Fixpoint bundles_add (bundles : Bundles) (pkt : PacketTrace) : Bundles :=
  match bundles with
  | [] => [(pkt, add_packet BundleDetails_init pkt)]
  | (key, details) :: rest =>
      if BundleEq key pkt then (key, add_packet details pkt) :: rest
      else (key, details) :: bundles_add rest pkt
  end.

Definition accumulate (packets : list PacketTrace) : Bundles :=
  fold_left bundles_add packets [].

(** ** Trace messages *)

Inductive TrafficDirection : Type := DIR_UNSPECIFIED | DIR_INGRESS | DIR_EGRESS.

Module NetworkPacketEvent.
(** The fields of the protobuf message; a field that was never set is
    absent from the message. *)
Record t : Type := mk {
  direction : option TrafficDirection;
  interface : option string;
  length : option Z;
  uid : option Z;
  tag : option Z;
  ip_proto : option Z;
  tcp_flags : option Z;
  local_port : option Z;
  remote_port : option Z
}.

Definition empty : t := mk None None None None None None None None None.

Definition set_direction v (e : t) : t :=
  mk (Some v) (interface e) (length e) (uid e) (tag e) (ip_proto e)
     (tcp_flags e) (local_port e) (remote_port e).
Definition set_interface v (e : t) : t :=
  mk (direction e) (Some v) (length e) (uid e) (tag e) (ip_proto e)
     (tcp_flags e) (local_port e) (remote_port e).
Definition set_length v (e : t) : t :=
  mk (direction e) (interface e) (Some v) (uid e) (tag e) (ip_proto e)
     (tcp_flags e) (local_port e) (remote_port e).
Definition set_uid v (e : t) : t :=
  mk (direction e) (interface e) (length e) (Some v) (tag e) (ip_proto e)
     (tcp_flags e) (local_port e) (remote_port e).
Definition set_tag v (e : t) : t :=
  mk (direction e) (interface e) (length e) (uid e) (Some v) (ip_proto e)
     (tcp_flags e) (local_port e) (remote_port e).
Definition set_ip_proto v (e : t) : t :=
  mk (direction e) (interface e) (length e) (uid e) (tag e) (Some v)
     (tcp_flags e) (local_port e) (remote_port e).
Definition set_tcp_flags v (e : t) : t :=
  mk (direction e) (interface e) (length e) (uid e) (tag e) (ip_proto e)
     (Some v) (local_port e) (remote_port e).
Definition set_local_port v (e : t) : t :=
  mk (direction e) (interface e) (length e) (uid e) (tag e) (ip_proto e)
     (tcp_flags e) (Some v) (remote_port e).
Definition set_remote_port v (e : t) : t :=
  mk (direction e) (interface e) (length e) (uid e) (tag e) (ip_proto e)
     (tcp_flags e) (local_port e) (Some v).
End NetworkPacketEvent.

Abbreviation NetworkPacketEvent := NetworkPacketEvent.t.

(** A bundle message: the shared context and the two packed sequences. *)
Record NetworkPacketBundle : Type := {
  ctx : NetworkPacketEvent;
  packet_timestamps : list Z;
  packet_lengths : list Z
}.

Inductive TracePacketData : Type :=
| network_packet (event : NetworkPacketEvent)
| network_packet_bundle (bundle : NetworkPacketBundle).

Record TracePacket : Type := {
  timestamp : Z;
  data : TracePacketData
}.

(** ** The handler *)

Module NetworkPacketTraceConfig.
(** The decoded configuration message; a field missing from the raw
    configuration is [None]. *)
Record t : Type := {
  raw_poll_ms : option Z;
  raw_aggregation_threshold : option Z;
  raw_intern_limit : option Z;
  raw_drop_local_port : option bool;
  raw_drop_remote_port : option bool;
  raw_drop_tcp_flags : option bool
}.

(** The decoder's getters give the protobuf default for a missing field. *)
Definition poll_ms (c : t) : Z := match raw_poll_ms c with Some v => v | None => 0 end.
Definition aggregation_threshold (c : t) : Z :=
  match raw_aggregation_threshold c with Some v => v | None => 0 end.
Definition intern_limit (c : t) : Z :=
  match raw_intern_limit c with Some v => v | None => 0 end.
Definition drop_local_port (c : t) : bool :=
  match raw_drop_local_port c with Some v => v | None => false end.
Definition drop_remote_port (c : t) : bool :=
  match raw_drop_remote_port c with Some v => v | None => false end.
Definition drop_tcp_flags (c : t) : bool :=
  match raw_drop_tcp_flags c with Some v => v | None => false end.
End NetworkPacketTraceConfig.

(** Modelled from the spec: the class declaration of [NetworkTraceHandler]
    is in a header outside the sources at hand; its members are the ones
    [OnSetup], [OnStart] and [OnStop] assign, with the widths of the session
    configuration ([u32] counters, [bool] flags). *)
Record NetworkTraceHandler : Type := {
  mStarted : bool;
  mPollMs : Z;
  mInternLimit : Z;
  mAggregationThreshold : Z;
  mDropLocalPort : bool;
  mDropRemotePort : bool;
  mDropTcpFlags : bool
}.

Definition OnSetup (self : NetworkTraceHandler) (config : NetworkPacketTraceConfig.t)
  : NetworkTraceHandler :=
  let pollMs := wrap32 (NetworkPacketTraceConfig.poll_ms config) in
  let pollMs := if pollMs <? 100 then 100 else pollMs in
  {| mStarted := mStarted self;
     mPollMs := pollMs;
     mInternLimit := wrap32 (NetworkPacketTraceConfig.intern_limit config);
     mAggregationThreshold :=
       wrap32 (NetworkPacketTraceConfig.aggregation_threshold config);
     mDropLocalPort := NetworkPacketTraceConfig.drop_local_port config;
     mDropRemotePort := NetworkPacketTraceConfig.drop_remote_port config;
     mDropTcpFlags := NetworkPacketTraceConfig.drop_tcp_flags config |}.

Section Handler.
(** [if_indextoname]: the name of the interface, or nothing when the
    index resolves to no interface (the C function returns [NULL]). *)
Variable if_indextoname : Z -> option string.

(** The order in which a range-for visits a [std::unordered_map]; it is
    some enumeration of the entries and nothing more is known of it. *)
Variable iteration_order : Bundles -> Bundles.

(** Static class method: it sees the packet and the event, not the
    handler. *)
Definition Fill (src : PacketTrace) (event : NetworkPacketEvent)
  : NetworkPacketEvent :=
  let event :=
    NetworkPacketEvent.set_direction
      (if PacketTrace.egress src then DIR_EGRESS else DIR_INGRESS) event in
  let event := NetworkPacketEvent.set_uid (PacketTrace.uid src) event in
  let event := NetworkPacketEvent.set_tag (PacketTrace.tag src) event in
  let event :=
    NetworkPacketEvent.set_local_port
      (if PacketTrace.egress src then ntohs (PacketTrace.sport src)
       else ntohs (PacketTrace.dport src)) event in
  let event :=
    NetworkPacketEvent.set_remote_port
      (if PacketTrace.egress src then ntohs (PacketTrace.dport src)
       else ntohs (PacketTrace.sport src)) event in
  let event := NetworkPacketEvent.set_ip_proto (PacketTrace.ipProto src) event in
  let event := NetworkPacketEvent.set_tcp_flags (PacketTrace.tcpFlags src) event in
  match if_indextoname (PacketTrace.ifindex src) with
  | Some ifname => NetworkPacketEvent.set_interface ifname event
  | None => NetworkPacketEvent.set_interface "error"%string event
  end.

(** The fallback branch of [Write]: one packet per record. *)
Definition write_packet (pkt : PacketTrace) : TracePacket :=
  {| timestamp := PacketTrace.timestampNs pkt;
     data :=
       network_packet
         (Fill pkt (NetworkPacketEvent.set_length (PacketTrace.length pkt)
                      NetworkPacketEvent.empty)) |}.

(** The body of the second loop of [Write]: one packet per map entry. *)
Definition write_bundle (kv : BundleKey * BundleDetails) : TracePacket :=
  let key := fst kv in
  let details := snd kv in
  {| timestamp := minTs details;
     data :=
       network_packet_bundle
         {| ctx := Fill key NetworkPacketEvent.empty;
            packet_timestamps :=
              map (fun kv => wrap64 (fst kv - minTs details)) (time_and_len details);
            packet_lengths := map snd (time_and_len details) |} |}.

(** [Write]: the trace packets acquired from the context, in the order
    of acquisition.  The fallback test is
    [!mInternLimit && !mAggregationThreshold]. *)
Definition Write (self : NetworkTraceHandler) (packets : list PacketTrace)
  : list TracePacket :=
  if (mInternLimit self =? 0) && (mAggregationThreshold self =? 0) then
    map write_packet packets
  else
    map write_bundle (iteration_order (accumulate packets)).
End Handler.

(** ** BpfUtils: getSocketCookie *)

Module BpfUtils.
Definition NONEXISTENT_COOKIE : Z := 0.

(** What the kernel answers to
    [getsockopt(sockFd, SOL_SOCKET, SO_COOKIE, &sock_cookie, &cookie_len)]. *)
Inductive sockopt_outcome : Type :=
| sockopt_ok (cookie : Z)
| sockopt_fail (err : Z).

Section Cookie.
Variable kernel : Z -> sockopt_outcome.

(** What [ALOGE] and [strerror] leave in [errno]. *)
Variable ALOGE : Z -> Z.

(** The C view of the call: the result, the content of [sock_cookie]
    after the call (it starts as the indeterminate value [junk]) and
    [errno] after the call. *)
Definition getsockopt (sockFd : Z) (junk : Z) (errno : Z) : Z * Z * Z :=
  match kernel sockFd with
  | sockopt_ok cookie => (0, cookie, errno)
  | sockopt_fail err => (-1, junk, err)
  end.

(** The returned cookie and [errno] on return. *)
Definition getSocketCookie (sockFd : Z) (junk : Z) (errno : Z) : Z * Z :=
  let '(res, sock_cookie, errno) := getsockopt sockFd junk errno in
  if res <? 0 then
    let res := wrap_int (- errno) in
    let errno := ALOGE errno in
    let errno := wrap_int (- res) in
    (NONEXISTENT_COOKIE, errno)
  else (sock_cookie, errno).
End Cookie.
End BpfUtils.

(** ** Vocabulary of the properties *)

(** The [(timestampNs, length)] pair of a record. *)
Definition sample (p : PacketTrace) : Z * Z :=
  (PacketTrace.timestampNs p, PacketTrace.length p).

(** The records of a batch that share the context of [key], in arrival
    order. *)
Definition group (key : BundleKey) (packets : list PacketTrace) : list PacketTrace :=
  filter (BundleEq key) packets.

(** The details obtained by running the loop body over [ps] alone. *)
Definition details_of (ps : list PacketTrace) : BundleDetails :=
  fold_left add_packet ps BundleDetails_init.

Definition keys_ctx (m : Bundles) : list AGG_TUPLE :=
  map (fun kv => AGG_FIELDS (fst kv)) m.

Definition AGG_TUPLE_eq_dec (a b : AGG_TUPLE) : {a = b} + {a <> b}.
Proof. repeat decide equality. Defined.

(** The number of distinct context keys met in a batch. *)
Definition distinct_keys (packets : list PacketTrace) : nat :=
  List.length (nodup AGG_TUPLE_eq_dec (map AGG_FIELDS packets)).

(** The spec's flag: [internLimit != 0 || aggregationThreshold != 0]. *)
Definition bundlingEnabled (self : NetworkTraceHandler) : bool :=
  negb (mInternLimit self =? 0) || negb (mAggregationThreshold self =? 0).

(** The [(timestamp, length)] pairs a reader gets back from one message:
    the pair of a direct message, and for a bundle each offset added to the
    message timestamp (in [uint64_t]) zipped with the lengths. *)
Definition recovered (m : TracePacket) : list (Z * Z) :=
  match data m with
  | network_packet event =>
      match NetworkPacketEvent.length event with
      | Some len => [(timestamp m, len)]
      | None => []
      end
  | network_packet_bundle b =>
      combine (map (fun off => wrap64 (timestamp m + off)) (packet_timestamps b))
              (packet_lengths b)
  end.

(** The context block of a message. *)
Definition event_of (m : TracePacket) : NetworkPacketEvent :=
  match data m with
  | network_packet event => event
  | network_packet_bundle b => ctx b
  end.

Definition sum_Z (l : list Z) : Z := fold_right Z.add 0 l.

(** ** Further vocabulary *)

(** The invariant of the first loop of [Write]. *)
Record accumulated (l : list PacketTrace) (m : Bundles) : Prop := {
  acc_nodup : NoDup (keys_ctx m);
  acc_entry : forall k d, In (k, d) m -> In k l /\ d = details_of (group k l);
  acc_cover : forall q, In q l -> In (AGG_FIELDS q) (keys_ctx m)
}.

(** A record with its two volatile fields replaced. *)
Definition with_sample (a : PacketTrace) (ts len : Z) : PacketTrace :=
  PacketTrace.mk ts (PacketTrace.ifindex a) len (PacketTrace.uid a)
    (PacketTrace.tag a) (PacketTrace.sport a) (PacketTrace.dport a)
    (PacketTrace.egress a) (PacketTrace.ipProto a) (PacketTrace.tcpFlags a).

(** The entry that [bundles.find(p)] selects. *)
Definition bundle_of (m : Bundles) (p : PacketTrace) : option (BundleKey * BundleDetails) :=
  find (fun kv => BundleEq (fst kv) p) m.

(** The values of a byte. *)
Definition byte_values : list Z := map Z.of_nat (seq 0 256).

(** The drop flags as honoured flags: with a flag set, the matching field of
    every message written is absent (or zero, for a port). *)
Definition drop_flags_honoured (if_indextoname : Z -> option string)
           (iteration_order : Bundles -> Bundles)
           (self : NetworkTraceHandler) (packets : list PacketTrace) : Prop :=
  forall msg, In msg (Write if_indextoname iteration_order self packets) ->
    (mDropLocalPort self = true ->
     NetworkPacketEvent.local_port (event_of msg) = None \/
     NetworkPacketEvent.local_port (event_of msg) = Some 0) /\
    (mDropRemotePort self = true ->
     NetworkPacketEvent.remote_port (event_of msg) = None \/
     NetworkPacketEvent.remote_port (event_of msg) = Some 0) /\
    (mDropTcpFlags self = true ->
     NetworkPacketEvent.tcp_flags (event_of msg) = None).

(** ** Sample inputs *)

(** An egress TCP packet of uid 1000 from port 80 (bytes [0x00 0x50] on the
    wire) to port 443. *)
Definition pkt1 : PacketTrace := PacketTrace.mk 1 2 72 1000 123 0x5000 0xbb01 true 6 16.
Definition pkt2 : PacketTrace := PacketTrace.mk 2 2 100 1000 123 0x5000 0xbb01 true 6 16.
Definition pkt5 : PacketTrace := PacketTrace.mk 5 2 456 1000 123 0x5000 0xbb01 true 6 16.
(** An ingress UDP packet of another uid, arrived before the others. *)
Definition pkt0 : PacketTrace := PacketTrace.mk 0 7 4294967295 2000 0 0x3500 0x9001 false 17 0.
Definition pkt3 : PacketTrace := PacketTrace.mk 3 7 60 2000 0 0x3500 0x9001 false 17 0.

(** A batch of two contexts, interleaved and out of timestamp order. *)
Definition batch : list PacketTrace := [pkt2; pkt0; pkt1; pkt5; pkt3].

(** [std::hash] as the identity on integers, [size_t] of 64 bits. *)
Definition identity_hash : StdHash :=
  {| size_bits := 64; hash_u32 := fun x => x; hash_u16 := fun x => x;
     hash_u8 := fun x => x; hash_bool := fun b => if b then 1 else 0 |}.

(** A freshly constructed handler. *)
Definition handler0 : NetworkTraceHandler :=
  {| mStarted := false; mPollMs := 0; mInternLimit := 0;
     mAggregationThreshold := 0; mDropLocalPort := false;
     mDropRemotePort := false; mDropTcpFlags := false |}.

(** A configuration that asks for bundling and for all three drops. *)
Definition config_bundled : NetworkPacketTraceConfig.t :=
  {| NetworkPacketTraceConfig.raw_poll_ms := Some 50;
     NetworkPacketTraceConfig.raw_aggregation_threshold := Some 10;
     NetworkPacketTraceConfig.raw_intern_limit := None;
     NetworkPacketTraceConfig.raw_drop_local_port := Some true;
     NetworkPacketTraceConfig.raw_drop_remote_port := Some true;
     NetworkPacketTraceConfig.raw_drop_tcp_flags := Some true |}.

(** The empty configuration. *)
Definition config_empty : NetworkPacketTraceConfig.t :=
  {| NetworkPacketTraceConfig.raw_poll_ms := None;
     NetworkPacketTraceConfig.raw_aggregation_threshold := None;
     NetworkPacketTraceConfig.raw_intern_limit := None;
     NetworkPacketTraceConfig.raw_drop_local_port := None;
     NetworkPacketTraceConfig.raw_drop_remote_port := None;
     NetworkPacketTraceConfig.raw_drop_tcp_flags := None |}.

(** Direct mode, yet with the three drops requested. *)
Definition config_drop : NetworkPacketTraceConfig.t :=
  {| NetworkPacketTraceConfig.raw_poll_ms := Some 1000;
     NetworkPacketTraceConfig.raw_aggregation_threshold := None;
     NetworkPacketTraceConfig.raw_intern_limit := None;
     NetworkPacketTraceConfig.raw_drop_local_port := Some true;
     NetworkPacketTraceConfig.raw_drop_remote_port := Some true;
     NetworkPacketTraceConfig.raw_drop_tcp_flags := Some true |}.

(** The handlers after setup with each configuration. *)
Definition handler_bundled : NetworkTraceHandler := OnSetup handler0 config_bundled.
Definition handler_direct : NetworkTraceHandler := OnSetup handler0 config_empty.
Definition handler_drop : NetworkTraceHandler := OnSetup handler0 config_drop.

(** Interface 2 is [wlan0]; no other index has a name. *)
Definition resolver0 (index : Z) : option string :=
  if index =? 2 then Some "wlan0"%string else None.

(** An enumeration of the map: newest entry first. *)
Definition newest_first (m : Bundles) : Bundles := rev m.

(** The bundle of uid 1000 in the sample batch, whose first record in
    arrival order is not the earliest one. *)
Definition msg1000 : TracePacket :=
  write_bundle resolver0 (pkt2, details_of [pkt2; pkt1; pkt5]).

(** Descriptor 3 is a socket with cookie 42; any other descriptor gets
    [EBADF] (9). *)
Definition kernel0 (sockFd : Z) : BpfUtils.sockopt_outcome :=
  if sockFd =? 3 then BpfUtils.sockopt_ok 42 else BpfUtils.sockopt_fail 9.

(** ** Session lifecycle *)

(** The calls a handler makes to the static poller [sPoller]. *)
Inductive PollerCall : Type :=
| poller_Start (pollMs : Z) (result : bool)
| poller_Stop.

(** Assignment to [mStarted]. *)
Definition set_mStarted (self : NetworkTraceHandler) (started : bool)
  : NetworkTraceHandler :=
  {| mStarted := started;
     mPollMs := mPollMs self;
     mInternLimit := mInternLimit self;
     mAggregationThreshold := mAggregationThreshold self;
     mDropLocalPort := mDropLocalPort self;
     mDropRemotePort := mDropRemotePort self;
     mDropTcpFlags := mDropTcpFlags self |}.

Inductive SessionEvent : Type :=
| ev_OnSetup (config : NetworkPacketTraceConfig.t)
| ev_OnStart
| ev_OnStop.

Section Lifecycle.
(** What [sPoller.Start(pollMs)] answers; the poller is shared by all
    sessions, so the answer may depend on the calls made so far. *)
Variable Start_result : list PollerCall -> Z -> bool.

(** [mStarted = sPoller.Start(mPollMs)]; the second component is the
    sequence of calls made to the poller so far. *)
Definition OnStart (self : NetworkTraceHandler) (calls : list PollerCall)
  : NetworkTraceHandler * list PollerCall :=
  let result := Start_result calls (mPollMs self) in
  (set_mStarted self result, calls ++ [poller_Start (mPollMs self) result]).

(** [if (mStarted) sPoller.Stop(); mStarted = false]. *)
Definition OnStop (self : NetworkTraceHandler) (calls : list PollerCall)
  : NetworkTraceHandler * list PollerCall :=
  let calls := if mStarted self then calls ++ [poller_Stop] else calls in
  (set_mStarted self false, calls).

(** The tracing service drives a session through its callbacks. *)
Definition session_step (st : NetworkTraceHandler * list PollerCall)
           (ev : SessionEvent) : NetworkTraceHandler * list PollerCall :=
  match ev with
  | ev_OnSetup config => (OnSetup (fst st) config, snd st)
  | ev_OnStart => OnStart (fst st) (snd st)
  | ev_OnStop => OnStop (fst st) (snd st)
  end.

Definition session_run (events : list SessionEvent)
           (st : NetworkTraceHandler * list PollerCall)
  : NetworkTraceHandler * list PollerCall :=
  fold_left session_step events st.
End Lifecycle.

Definition is_Stop (c : PollerCall) : bool :=
  match c with poller_Stop => true | _ => false end.

Definition is_started (c : PollerCall) : bool :=
  match c with poller_Start _ true => true | _ => false end.

(** The number of [Stop] calls and of [Start] calls answered [true]. *)
Definition count_Stop (calls : list PollerCall) : nat :=
  List.length (filter is_Stop calls).
Definition count_started (calls : list PollerCall) : nat :=
  List.length (filter is_started calls).

(** ** BpfUtils: synchronizeKernelRCU *)

Module KernelRCU.
(** Values of the Linux socket interface. *)
Definition AF_KEY : Z := 15.
Definition SOCK_RAW : Z := 3.
Definition SOCK_CLOEXEC : Z := 524288.
Definition PF_KEY_V2 : Z := 2.

Inductive Syscall : Type :=
| sys_socket (domain type protocol : Z)
| sys_close (fd : Z).

(** What the kernel answers to a call: a value, or an error code. *)
Inductive sys_outcome : Type :=
| sys_ok (value : Z)
| sys_fail (err : Z).

(** The process as the function sees it: [errno] and the system calls
    issued. *)
Record SysState : Type := {
  errno : Z;
  issued : list Syscall
}.

Section RCU.
Variable os_socket : Z -> Z -> Z -> sys_outcome.
Variable os_close : Z -> sys_outcome.

(** What [ALOGE] and [strerror] leave in [errno]. *)
Variable ALOGE : Z -> Z.

Definition socket (domain type protocol : Z) (st : SysState) : Z * SysState :=
  let issued := issued st ++ [sys_socket domain type protocol] in
  match os_socket domain type protocol with
  | sys_ok fd => (fd, {| errno := errno st; issued := issued |})
  | sys_fail err => (-1, {| errno := err; issued := issued |})
  end.

Definition close (fd : Z) (st : SysState) : Z * SysState :=
  let issued := issued st ++ [sys_close fd] in
  match os_close fd with
  | sys_ok _ => (0, {| errno := errno st; issued := issued |})
  | sys_fail err => (-1, {| errno := err; issued := issued |})
  end.

Definition log_error (st : SysState) : SysState :=
  {| errno := ALOGE (errno st); issued := issued st |}.

(** The result and the state on return. *)
Definition synchronizeKernelRCU (st : SysState) : Z * SysState :=
  let '(pfSocket, st) := socket AF_KEY (Z.lor SOCK_RAW SOCK_CLOEXEC) PF_KEY_V2 st in
  if pfSocket <? 0 then
    let ret := wrap_int (- errno st) in
    let st := log_error st in
    (ret, st)
  else
    let '(res, st) := close pfSocket st in
    if negb (res =? 0) then
      let ret := wrap_int (- errno st) in
      let st := log_error st in
      (ret, st)
    else (0, st).
End RCU.
End KernelRCU.

(** ** More vocabulary *)

(** The samples of a bundle entry remember the record that opened it. *)
Definition first_of_group (key : BundleKey) (packets : list PacketTrace)
  : option PacketTrace :=
  hd_error (group key packets).


(** A session whose poller accepts the first start and refuses later ones
    until stopped. *)
Definition single_poller (calls : list PollerCall) (pollMs : Z) : bool :=
  Nat.eqb (count_started calls) (count_Stop calls).

(** A kernel that opens descriptor 7 and closes it; one without PF_KEY
    support ([EAFNOSUPPORT], 97); one whose close is interrupted ([EINTR],
    4). *)
Definition socket_fine (domain type protocol : Z) : KernelRCU.sys_outcome :=
  KernelRCU.sys_ok 7.
Definition socket_unsupported (domain type protocol : Z) : KernelRCU.sys_outcome :=
  KernelRCU.sys_fail 97.
Definition close_fine (fd : Z) : KernelRCU.sys_outcome := KernelRCU.sys_ok 0.
Definition close_interrupted (fd : Z) : KernelRCU.sys_outcome := KernelRCU.sys_fail 4.

Definition sys0 : KernelRCU.SysState :=
  {| KernelRCU.errno := 0; KernelRCU.issued := [] |}.

(** At every point of the call sequence, no more [Stop]s than [Start]s
    that were answered [true]. *)
Definition balanced (calls : list PollerCall) : Prop :=
  forall n, (count_Stop (firstn n calls) <= count_started (firstn n calls))%nat.

(** A [Start] call made with an interval of at least 100 ms that fits
    [uint32_t]. *)
Definition above_floor (c : PollerCall) : Prop :=
  match c with
  | poller_Start pollMs _ => 100 <= pollMs < 2 ^ 32
  | poller_Stop => True
  end.

(** The socket call of [synchronizeKernelRCU]. *)
Definition pf_key_socket : KernelRCU.Syscall :=
  KernelRCU.sys_socket KernelRCU.AF_KEY
    (Z.lor KernelRCU.SOCK_RAW KernelRCU.SOCK_CLOEXEC) KernelRCU.PF_KEY_V2.

(** The seed of [BundleHash] once the first seven fields are mixed in. *)
Definition seed_before_tcpFlags (H : StdHash) (a : BundleKey) : Z :=
  let seed := 0 in
  let seed := HashCombine H seed (wrap_size H (hash_u32 H (PacketTrace.ifindex a))) in
  let seed := HashCombine H seed (wrap_size H (hash_u32 H (PacketTrace.uid a))) in
  let seed := HashCombine H seed (wrap_size H (hash_u32 H (PacketTrace.tag a))) in
  let seed := HashCombine H seed (wrap_size H (hash_u16 H (PacketTrace.sport a))) in
  let seed := HashCombine H seed (wrap_size H (hash_u16 H (PacketTrace.dport a))) in
  let seed := HashCombine H seed (wrap_size H (hash_bool H (PacketTrace.egress a))) in
  let seed := HashCombine H seed (wrap_size H (hash_u8 H (PacketTrace.ipProto a))) in
  seed.

(** [msg] is the bundle of the records of the batch that share the
    context of [key]: the context block [Fill] gives for [key], the least
    timestamp of the group as message timestamp, and the offsets and lengths
    of the group's records in arrival order. *)
Definition is_bundle_of (if_indextoname : Z -> option string)
           (packets : list PacketTrace) (key : BundleKey) (msg : TracePacket) : Prop :=
  In key packets /\
  exists b,
    data msg = network_packet_bundle b /\
    ctx b = Fill if_indextoname key NetworkPacketEvent.empty /\
    timestamp msg = minTs (details_of (group key packets)) /\
    packet_timestamps b =
      map (fun p => wrap64 (PacketTrace.timestampNs p - timestamp msg))
          (group key packets) /\
    packet_lengths b = map PacketTrace.length (group key packets).

(** ** Context equivalence *)

Lemma tuple_eqb_eq (a b : AGG_TUPLE) : tuple_eqb a b = true <-> a = b.
Proof.
  destruct a as [[[[[[[i1 u1] t1] s1] d1] e1] p1] f1].
  destruct b as [[[[[[[i2 u2] t2] s2] d2] e2] p2] f2].
  unfold tuple_eqb. rewrite !andb_true_iff, !Z.eqb_eq, Bool.eqb_true_iff.
  split.
  - intros [[[[[[[-> ->] ->] ->] ->] ->] ->] ->]. reflexivity.
  - intros E. inversion E. tauto.
Qed.

Lemma BundleEq_iff (a b : BundleKey) :
  BundleEq a b = true <-> AGG_FIELDS a = AGG_FIELDS b.
Proof. apply tuple_eqb_eq. Qed.

Lemma BundleEq_false_iff (a b : BundleKey) :
  BundleEq a b = false <-> AGG_FIELDS a <> AGG_FIELDS b.
Proof.
  rewrite <- BundleEq_iff. destruct (BundleEq a b); split; congruence.
Qed.

Lemma BundleEq_refl (a : BundleKey) : BundleEq a a = true.
Proof. now apply BundleEq_iff. Qed.

Lemma BundleEq_sym (a b : BundleKey) : BundleEq a b = BundleEq b a.
Proof.
  destruct (BundleEq b a) eqn:E.
  - apply BundleEq_iff. symmetry. now apply BundleEq_iff.
  - apply BundleEq_false_iff. intros E'. apply BundleEq_false_iff in E. congruence.
Qed.

Lemma BundleEq_trans (a b c : BundleKey) :
  BundleEq a b = true -> BundleEq b c = true -> BundleEq a c = true.
Proof. rewrite !BundleEq_iff. congruence. Qed.

(** Two keys with the same context select the same records. *)
Lemma BundleEq_ext (a b : BundleKey) :
  AGG_FIELDS a = AGG_FIELDS b -> forall p, BundleEq a p = BundleEq b p.
Proof. intros E p. unfold BundleEq. now rewrite E. Qed.

Lemma BundleHash_ext (H : StdHash) (a b : BundleKey) :
  AGG_FIELDS a = AGG_FIELDS b -> BundleHash H a = BundleHash H b.
Proof.
  unfold AGG_FIELDS, BundleHash. intros E. inversion E. congruence.
Qed.

(** ** The accumulation loop *)

Lemma accumulate_snoc (l : list PacketTrace) (p : PacketTrace) :
  accumulate (l ++ [p]) = bundles_add (accumulate l) p.
Proof. unfold accumulate. now rewrite fold_left_app. Qed.

Lemma details_of_snoc (ps : list PacketTrace) (p : PacketTrace) :
  details_of (ps ++ [p]) = add_packet (details_of ps) p.
Proof. unfold details_of. now rewrite fold_left_app. Qed.

Lemma group_snoc (k : BundleKey) (l : list PacketTrace) (p : PacketTrace) :
  group k (l ++ [p]) = group k l ++ (if BundleEq k p then [p] else []).
Proof. unfold group. rewrite filter_app. simpl. now destruct (BundleEq k p). Qed.

Lemma group_nil_iff (k : BundleKey) (l : list PacketTrace) :
  group k l = [] <-> (forall q, In q l -> AGG_FIELDS q <> AGG_FIELDS k).
Proof.
  unfold group. split.
  - intros E q Hq Hc.
    assert (Hin : In q (filter (BundleEq k) l)).
    { apply filter_In. split; [assumption|]. now apply BundleEq_iff. }
    rewrite E in Hin. contradiction.
  - intros Hall. induction l as [|a l IH]; simpl; [reflexivity|].
    destruct (BundleEq k a) eqn:E.
    + apply BundleEq_iff in E. exfalso. apply (Hall a); simpl; auto.
    + apply IH. intros q Hq. apply Hall. now right.
Qed.

(** The keys after one step: unchanged when the context of [p] is already
    present, extended by it otherwise. *)
Lemma keys_ctx_bundles_add_old (m : Bundles) (p : PacketTrace) :
  In (AGG_FIELDS p) (keys_ctx m) -> keys_ctx (bundles_add m p) = keys_ctx m.
Proof.
  induction m as [|[k d] m IH]; simpl; [contradiction|].
  intros Hin. destruct (BundleEq k p) eqn:E; [reflexivity|].
  apply BundleEq_false_iff in E. simpl. f_equal. apply IH.
  destruct Hin as [Hc|Hin]; [congruence | assumption].
Qed.

Lemma keys_ctx_bundles_add_new (m : Bundles) (p : PacketTrace) :
  ~ In (AGG_FIELDS p) (keys_ctx m) ->
  keys_ctx (bundles_add m p) = keys_ctx m ++ [AGG_FIELDS p].
Proof.
  induction m as [|[k d] m IH]; simpl; [reflexivity|].
  intros Hnin. destruct (BundleEq k p) eqn:E.
  - apply BundleEq_iff in E. exfalso. apply Hnin. now left.
  - simpl. f_equal. apply IH. intros Hc. apply Hnin. now right.
Qed.

(** What an entry of the map after one step can be. *)
Lemma In_bundles_add (m : Bundles) (p : PacketTrace) (k : BundleKey) (d : BundleDetails) :
  NoDup (keys_ctx m) ->
  In (k, d) (bundles_add m p) ->
  (In (k, d) m /\ BundleEq k p = false) \/
  (exists d0, In (k, d0) m /\ BundleEq k p = true /\ d = add_packet d0 p) \/
  (k = p /\ d = add_packet BundleDetails_init p /\
   ~ In (AGG_FIELDS p) (keys_ctx m)).
Proof.
  induction m as [|[k0 d0] m IH]; simpl; intros ND Hin.
  - destruct Hin as [E|[]]. inversion E; subst. right. right. auto.
  - inversion ND as [|? ? Hnin ND']; subst.
    destruct (BundleEq k0 p) eqn:E.
    + destruct Hin as [E'|Hin].
      * inversion E'; subst. right. left. exists d0. auto.
      * left. split; [now right|].
        apply BundleEq_false_iff. intros Hc. apply Hnin.
        apply BundleEq_iff in E. rewrite E, <- Hc.
        apply (in_map (fun kv => AGG_FIELDS (fst kv)) m (k, d) Hin).
    + destruct Hin as [E'|Hin].
      * inversion E'; subst. left. auto.
      * destruct (IH ND' Hin) as [[H1 H2]|[[d1 [H1 H2]]|[H1 [H2 H3]]]].
        -- left. auto.
        -- right. left. exists d1. auto.
        -- right. right. repeat split; auto.
           intros [Hc|Hc]; [|contradiction].
           apply BundleEq_false_iff in E. congruence.
Qed.

Lemma accumulated_step (l : list PacketTrace) (m : Bundles) (p : PacketTrace) :
  accumulated l m -> accumulated (l ++ [p]) (bundles_add m p).
Proof.
  intros [ND EN CO]. split.
  - destruct (in_dec AGG_TUPLE_eq_dec (AGG_FIELDS p) (keys_ctx m)) as [i|n].
    { now rewrite keys_ctx_bundles_add_old. }
    rewrite keys_ctx_bundles_add_new by assumption.
    apply NoDup_app; [assumption | repeat constructor; simpl; tauto |].
    intros x Hx [<-|[]]. contradiction.
  - intros k d Hin.
    destruct (In_bundles_add m p k d ND Hin)
      as [[H1 H2]|[[d0 [H1 [H2 H3]]]|[H1 [H2 H3]]]].
    + destruct (EN k d H1) as [Hk Hd]. split; [apply in_or_app; now left|].
      rewrite group_snoc, H2, app_nil_r. exact Hd.
    + destruct (EN k d0 H1) as [Hk Hd]. split; [apply in_or_app; now left|].
      rewrite group_snoc, H2, details_of_snoc, <- Hd. exact H3.
    + subst k. split; [apply in_or_app; right; now left|].
      rewrite group_snoc, BundleEq_refl, details_of_snoc.
      assert (E : group p l = []).
      { apply group_nil_iff. intros q Hq Hc. apply H3. rewrite <- Hc. now apply CO. }
      rewrite E. exact H2.
  - intros q Hq. apply in_app_or in Hq.
    destruct (in_dec AGG_TUPLE_eq_dec (AGG_FIELDS p) (keys_ctx m)) as [i|n].
    + rewrite keys_ctx_bundles_add_old by assumption.
      destruct Hq as [Hq|[<-|[]]]; auto.
    + rewrite keys_ctx_bundles_add_new by assumption.
      apply in_or_app. destruct Hq as [Hq|[<-|[]]]; [left; auto | right; now left].
Qed.

Lemma accumulate_accumulated (l : list PacketTrace) : accumulated l (accumulate l).
Proof.
  induction l as [|p l IH] using rev_ind.
  - split; simpl; [constructor | contradiction | contradiction].
  - rewrite accumulate_snoc. now apply accumulated_step.
Qed.

(** ** What a bundle holds *)

Lemma fold_add_packet_time_and_len (ps : list PacketTrace) (d : BundleDetails) :
  time_and_len (fold_left add_packet ps d) = time_and_len d ++ map sample ps.
Proof.
  revert d. induction ps as [|p ps IH]; intros d; simpl.
  - now rewrite app_nil_r.
  - rewrite IH. simpl. now rewrite <- app_assoc.
Qed.

Lemma details_of_time_and_len (ps : list PacketTrace) :
  time_and_len (details_of ps) = map sample ps.
Proof. unfold details_of. now rewrite fold_add_packet_time_and_len. Qed.

Lemma wrap32_add_l (a b : Z) : wrap32 (wrap32 a + b) = wrap32 (a + b).
Proof. unfold wrap32, wrap. apply Zplus_mod_idemp_l. Qed.

Lemma fold_add_packet_bytes (ps : list PacketTrace) (d : BundleDetails) :
  wrap32 (bytes (fold_left add_packet ps d)) =
  wrap32 (bytes d + sum_Z (map PacketTrace.length ps)).
Proof.
  revert d. induction ps as [|p ps IH]; intros d; simpl.
  - now rewrite Z.add_0_r.
  - rewrite IH. simpl. rewrite wrap32_add_l. f_equal. lia.
Qed.

Lemma wrap32_idem (a : Z) : wrap32 (wrap32 a) = wrap32 a.
Proof. unfold wrap32, wrap. apply Zmod_mod. Qed.

Lemma bytes_wrapped (ps : list PacketTrace) (d : BundleDetails) :
  wrap32 (bytes d) = bytes d ->
  wrap32 (bytes (fold_left add_packet ps d)) = bytes (fold_left add_packet ps d).
Proof.
  revert d. induction ps as [|p ps IH]; intros d Hd; simpl; [assumption|].
  apply IH. simpl. apply wrap32_idem.
Qed.

Lemma details_of_bytes (ps : list PacketTrace) :
  bytes (details_of ps) = sum_Z (map PacketTrace.length ps) mod 2 ^ 32.
Proof.
  unfold details_of. rewrite <- bytes_wrapped by reflexivity.
  rewrite fold_add_packet_bytes. reflexivity.
Qed.

(** [minTs] is a lower bound of the timestamps met, and of the start value. *)
Lemma fold_add_packet_minTs_le (ps : list PacketTrace) (d : BundleDetails) :
  minTs (fold_left add_packet ps d) <= minTs d /\
  Forall (fun p => minTs (fold_left add_packet ps d) <= PacketTrace.timestampNs p) ps.
Proof.
  revert d. induction ps as [|p ps IH]; intros d; simpl.
  - split; [lia | constructor].
  - destruct (IH (add_packet d p)) as [H1 H2]. simpl in H1.
    split; [lia|]. constructor; [lia | assumption].
Qed.

(** [minTs] is the start value or one of the timestamps met. *)
Lemma fold_add_packet_minTs_in (ps : list PacketTrace) (d : BundleDetails) :
  minTs (fold_left add_packet ps d) = minTs d \/
  In (minTs (fold_left add_packet ps d)) (map PacketTrace.timestampNs ps).
Proof.
  revert d. induction ps as [|p ps IH]; intros d; simpl.
  - now left.
  - destruct (IH (add_packet d p)) as [H|H]; [|right; now right].
    rewrite H. simpl.
    destruct (Z.min_spec (minTs d) (PacketTrace.timestampNs p)) as [[_ ->]|[_ ->]];
      [now left | right; now left].
Qed.

(** On a non-empty run of well-formed records [minTs] is the least
    timestamp. *)
Lemma details_of_minTs (ps : list PacketTrace) :
  ps <> [] -> Forall PacketTrace.wf ps ->
  In (minTs (details_of ps)) (map PacketTrace.timestampNs ps) /\
  Forall (fun p => minTs (details_of ps) <= PacketTrace.timestampNs p) ps.
Proof.
  intros Hne Hwf. unfold details_of.
  destruct (fold_add_packet_minTs_le ps BundleDetails_init) as [Hle Hall].
  split; [|assumption].
  destruct (fold_add_packet_minTs_in ps BundleDetails_init) as [E|Hin]; [|assumption].
  destruct ps as [|p ps]; [congruence|].
  inversion Hall as [|? ? Hp _]; subst. inversion Hwf as [|? ? Wp _]; subst.
  destruct Wp as [[_ Wts] _]. rewrite E in Hp |- *.
  cbn [map minTs BundleDetails_init] in Hp |- *. left.
  unfold uint64_max in *. lia.
Qed.

Lemma group_wf (k : BundleKey) (l : list PacketTrace) :
  Forall PacketTrace.wf l -> Forall PacketTrace.wf (group k l).
Proof.
  unfold group. rewrite !Forall_forall. intros Hl p Hp.
  apply filter_In in Hp. now apply Hl.
Qed.

Lemma group_key_nonempty (k : BundleKey) (l : list PacketTrace) :
  In k l -> group k l <> [].
Proof.
  intros Hin E. assert (Hk : In k (group k l)).
  { apply filter_In. split; [assumption | apply BundleEq_refl]. }
  rewrite E in Hk. contradiction.
Qed.

(** An entry of the accumulated map, spelled out. *)
Lemma accumulate_entry (l : list PacketTrace) (k : BundleKey) (d : BundleDetails) :
  In (k, d) (accumulate l) -> In k l /\ d = details_of (group k l).
Proof. apply (acc_entry _ _ (accumulate_accumulated l)). Qed.

Lemma in_keys_ctx (m : Bundles) (x : AGG_TUPLE) :
  In x (keys_ctx m) <-> exists kv, In kv m /\ AGG_FIELDS (fst kv) = x.
Proof.
  unfold keys_ctx. rewrite in_map_iff. split; intros [kv [A B]]; exists kv; auto.
Qed.

(** Two entries of the accumulated map with the same context are one
    entry. *)
Lemma NoDup_keys_inj (m : Bundles) (kv1 kv2 : BundleKey * BundleDetails) :
  NoDup (keys_ctx m) -> In kv1 m -> In kv2 m ->
  AGG_FIELDS (fst kv1) = AGG_FIELDS (fst kv2) -> kv1 = kv2.
Proof.
  induction m as [|kv m IH]; simpl; [contradiction|].
  intros ND H1 H2 E. inversion ND as [|? ? Hnin ND']; subst.
  destruct H1 as [->|H1]; destruct H2 as [->|H2]; auto.
  - exfalso. apply Hnin. apply in_keys_ctx. exists kv2. auto.
  - exfalso. apply Hnin. apply in_keys_ctx. exists kv1. auto.
Qed.

(** ** Looking up a bundle *)

Lemma batch_wf : Forall PacketTrace.wf batch.
Proof.
  repeat constructor; unfold in_range; vm_compute; intuition congruence.
Qed.

Lemma bundle_of_ext (m : Bundles) (p q : PacketTrace) :
  AGG_FIELDS p = AGG_FIELDS q -> bundle_of m p = bundle_of m q.
Proof.
  intros E. unfold bundle_of. induction m as [|kv m IH]; simpl; [reflexivity|].
  rewrite (BundleEq_sym (fst kv) p), (BundleEq_sym (fst kv) q).
  rewrite (BundleEq_ext p q E). now rewrite IH.
Qed.

Lemma bundle_of_Some (m : Bundles) (p : PacketTrace) kv :
  bundle_of m p = Some kv -> In kv m /\ AGG_FIELDS (fst kv) = AGG_FIELDS p.
Proof.
  unfold bundle_of. intros E. apply find_some in E. destruct E as [A B].
  split; [assumption | now apply BundleEq_iff].
Qed.

Lemma bundle_of_covered (m : Bundles) (p : PacketTrace) :
  In (AGG_FIELDS p) (keys_ctx m) -> exists kv, bundle_of m p = Some kv.
Proof.
  intros Hin. destruct (bundle_of m p) as [kv|] eqn:E; [now exists kv|].
  exfalso. apply in_keys_ctx in Hin. destruct Hin as [kv [A B]].
  unfold bundle_of in E. apply (find_none _ _ E) in A.
  apply BundleEq_false_iff in A. contradiction.
Qed.

Lemma group_ext (a b : BundleKey) (l : list PacketTrace) :
  AGG_FIELDS a = AGG_FIELDS b -> group a l = group b l.
Proof. intros E. unfold group. apply filter_ext. now apply BundleEq_ext. Qed.

(** ** Partition into bundles *)

(** C5 (partition correctness): [BundleEq] compares the eight context fields
    and nothing else, it is reflexive, symmetric and transitive, equal keys
    hash alike and [BundleHash] ignores timestamp and length; in the map
    accumulated from a batch every record of the batch has exactly one
    bundle, that bundle holds the samples of the records sharing its context
    in arrival order, and two records of the batch have the same bundle
    exactly when their eight context fields agree. *)
Theorem partition_correctness (H : StdHash) (packets : list PacketTrace) :
  (forall a b, BundleEq a b = true <-> AGG_FIELDS a = AGG_FIELDS b) /\
  (forall a b ts1 len1 ts2 len2,
      BundleEq (with_sample a ts1 len1) (with_sample b ts2 len2) = BundleEq a b) /\
  (forall a, BundleEq a a = true) /\
  (forall a b, BundleEq a b = true -> BundleEq b a = true) /\
  (forall a b c, BundleEq a b = true -> BundleEq b c = true -> BundleEq a c = true) /\
  (forall a b, BundleEq a b = true -> BundleHash H a = BundleHash H b) /\
  (forall a ts len, BundleHash H (with_sample a ts len) = BundleHash H a) /\
  (forall p, In p packets ->
     exists kv,
       bundle_of (accumulate packets) p = Some kv /\
       (forall kv', In kv' (accumulate packets) ->
                    BundleEq (fst kv') p = true -> kv' = kv) /\
       time_and_len (snd kv) = map sample (group p packets) /\
       In (sample p) (time_and_len (snd kv))) /\
  (forall p q, In p packets -> In q packets ->
     (bundle_of (accumulate packets) p = bundle_of (accumulate packets) q
      <-> AGG_FIELDS p = AGG_FIELDS q)).
Proof.
  pose proof (accumulate_accumulated packets) as [ND EN CO].
  split; [exact BundleEq_iff|].
  split; [intros; reflexivity|].
  split; [exact BundleEq_refl|].
  split; [intros a b E; now rewrite BundleEq_sym|].
  split; [exact BundleEq_trans|].
  split; [intros a b E; apply BundleHash_ext; now apply BundleEq_iff|].
  split; [intros a ts len; now apply BundleHash_ext|].
  split.
  - intros p Hp.
    destruct (bundle_of_covered _ p (CO p Hp)) as [kv E]. exists kv.
    destruct (bundle_of_Some _ _ _ E) as [Hin Hctx].
    assert (Htl : time_and_len (snd kv) = map sample (group p packets)).
    { destruct kv as [k d]. destruct (EN k d Hin) as [_ ->]. simpl in *.
      rewrite details_of_time_and_len. now rewrite (group_ext k p). }
    split; [assumption|]. split; [|split; [assumption|]].
    + intros kv' Hin' E'. apply (NoDup_keys_inj (accumulate packets)); auto.
      apply BundleEq_iff in E'. congruence.
    + rewrite Htl. apply in_map. apply filter_In. split; [assumption|].
      apply BundleEq_refl.
  - intros p q Hp Hq. split; [|apply bundle_of_ext].
    intros E.
    destruct (bundle_of_covered _ p (CO p Hp)) as [kv Ep].
    destruct (bundle_of_Some _ _ _ Ep) as [_ Hp'].
    rewrite E in Ep. destruct (bundle_of_Some _ _ _ Ep) as [_ Hq']. congruence.
Qed.

(** In the sample batch [pkt1] and [pkt5] share the bundle keyed by [pkt2]
    and hash alike; [pkt3] lies in the other bundle. *)
Lemma partition_correctness_witness :
  BundleHash identity_hash pkt1 = BundleHash identity_hash pkt5 /\
  bundle_of (accumulate batch) pkt1 = bundle_of (accumulate batch) pkt5 /\
  bundle_of (accumulate batch) pkt1 <> bundle_of (accumulate batch) pkt3.
Proof.
  destruct (partition_correctness identity_hash batch)
    as [_ [_ [_ [_ [_ [Hh [_ [_ Hg]]]]]]]].
  split; [apply Hh; reflexivity|].
  split.
  - apply Hg; [vm_compute; tauto | vm_compute; tauto | reflexivity].
  - intros E. apply Hg in E; [discriminate E | vm_compute; tauto | vm_compute; tauto].
Defined.

(** ** Byte counters *)

(** C7 (wraparound accumulation): the [bytes] member of every accumulated
    bundle is the sum of the lengths of the records of its group, reduced
    modulo 2^32. *)
Theorem bytes_wraparound (packets : list PacketTrace) (key : BundleKey)
        (details : BundleDetails) :
  In (key, details) (accumulate packets) ->
  bytes details = sum_Z (map PacketTrace.length (group key packets)) mod 2 ^ 32.
Proof.
  intros Hin. destruct (accumulate_entry _ _ _ Hin) as [_ ->].
  apply details_of_bytes.
Qed.

(** In the sample batch the group of uid 2000 carries 4294967295 + 60 bytes:
    the counter wraps to 59. *)
Lemma bytes_wraparound_witness :
  In (pkt0, details_of [pkt0; pkt3]) (accumulate batch) /\
  bytes (details_of [pkt0; pkt3]) = 59.
Proof.
  assert (Hin : In (pkt0, details_of [pkt0; pkt3]) (accumulate batch)).
  { vm_compute. right. left. reflexivity. }
  split; [exact Hin|].
  rewrite (bytes_wraparound batch pkt0 _ Hin). vm_compute. reflexivity.
Defined.

(** ** The messages written for a batch *)

Lemma Forall2_map_In {A B C : Type} (R : B -> C -> Prop) (f : A -> B) (g : A -> C)
      (l : list A) :
  (forall x, In x l -> R (f x) (g x)) -> Forall2 R (map f l) (map g l).
Proof.
  induction l as [|a l IH]; intros Hall; simpl; constructor.
  - apply Hall. now left.
  - apply IH. intros x Hx. apply Hall. now right.
Qed.

Section Messages.
Variable if_indextoname : Z -> option string.
Variable iteration_order : Bundles -> Bundles.

(** The map is enumerated entry by entry, each entry once. *)
Hypothesis iteration_order_perm : forall m, Permutation (iteration_order m) m.

Local Abbreviation Fill' := (Fill if_indextoname).
Local Abbreviation Write' := (Write if_indextoname iteration_order).
Local Abbreviation write_packet' := (write_packet if_indextoname).
Local Abbreviation write_bundle' := (write_bundle if_indextoname).

Lemma Fill_length (src : PacketTrace) (event : NetworkPacketEvent) :
  NetworkPacketEvent.length (Fill' src event) = NetworkPacketEvent.length event.
Proof.
  unfold Fill.
  destruct (if_indextoname (PacketTrace.ifindex src)); reflexivity.
Qed.

Lemma recovered_write_packet (p : PacketTrace) :
  recovered (write_packet' p) = [sample p].
Proof.
  unfold recovered, write_packet. simpl.
  now rewrite Fill_length.
Qed.

(** Adding the offsets back to the base gives the samples again, as long
    as the base is below every timestamp. *)
Lemma undo_offsets (mn : Z) (l : list (Z * Z)) :
  Forall (fun x => mn <= fst x < 2 ^ 64) l -> 0 <= mn ->
  combine (map (fun off => wrap64 (mn + off))
               (map (fun kv => wrap64 (fst kv - mn)) l))
          (map snd l) = l.
Proof.
  intros Hall Hmn. induction Hall as [|[t n] l Hx Hall IH]; simpl; [reflexivity|].
  rewrite IH. simpl in Hx. unfold wrap64, wrap.
  rewrite (Z.mod_small (t - mn)) by lia.
  replace (mn + (t - mn)) with t by lia.
  rewrite Z.mod_small by lia. reflexivity.
Qed.

(** The samples of an accumulated bundle lie between [minTs] and the
    largest [uint64_t]. *)
Lemma accumulate_entry_bounds (l : list PacketTrace) (k : BundleKey) (d : BundleDetails) :
  Forall PacketTrace.wf l -> In (k, d) (accumulate l) ->
  0 <= minTs d /\ Forall (fun x => minTs d <= fst x < 2 ^ 64) (time_and_len d).
Proof.
  intros Hwf Hin. destruct (accumulate_entry _ _ _ Hin) as [Hk ->].
  pose proof (group_wf k l Hwf) as Hg.
  destruct (details_of_minTs (group k l) (group_key_nonempty k l Hk) Hg) as [Hmin Hle].
  split.
  - apply in_map_iff in Hmin. destruct Hmin as [p [<- Hp]].
    rewrite Forall_forall in Hg. destruct (Hg p Hp) as [[? ?] _]. assumption.
  - rewrite details_of_time_and_len. rewrite Forall_forall in *.
    intros x Hx. apply in_map_iff in Hx. destruct Hx as [p [<- Hp]]. simpl.
    split; [now apply Hle|]. destruct (Hg p Hp) as [[? ?] _]. assumption.
Qed.

Lemma recovered_write_bundle (l : list PacketTrace) (kv : BundleKey * BundleDetails) :
  Forall PacketTrace.wf l -> In kv (accumulate l) ->
  recovered (write_bundle' kv) = time_and_len (snd kv).
Proof.
  intros Hwf Hin. destruct kv as [k d].
  destruct (accumulate_entry_bounds l k d Hwf Hin) as [H0 Hall].
  unfold recovered, write_bundle. simpl.
  now apply undo_offsets.
Qed.

(** One step of the loop adds the sample of the packet to the samples held
    by the map, and touches no other sample. *)
Lemma samples_bundles_add (m : Bundles) (p : PacketTrace) :
  Permutation (flat_map (fun kv => time_and_len (snd kv)) (bundles_add m p))
              (flat_map (fun kv => time_and_len (snd kv)) m ++ [sample p]).
Proof.
  induction m as [|[k d] m IH]; simpl.
  - reflexivity.
  - destruct (BundleEq k p); simpl.
    + rewrite <- !app_assoc. apply Permutation_app_head.
      apply Permutation_app_comm.
    + rewrite <- app_assoc. now apply Permutation_app_head.
Qed.

Lemma samples_accumulate (l : list PacketTrace) :
  Permutation (flat_map (fun kv => time_and_len (snd kv)) (accumulate l))
              (map sample l).
Proof.
  induction l as [|p l IH] using rev_ind; [reflexivity|].
  rewrite accumulate_snoc, samples_bundles_add, map_app. simpl.
  now apply Permutation_app_tail.
Qed.

Lemma flat_map_ext_in {A B : Type} (f g : A -> list B) (l : list A) :
  (forall a, In a l -> f a = g a) -> flat_map f l = flat_map g l.
Proof.
  intros E. rewrite !flat_map_concat_map. f_equal. now apply map_ext_in.
Qed.

Lemma Write_direct (self : NetworkTraceHandler) (packets : list PacketTrace) :
  bundlingEnabled self = false -> Write' self packets = map write_packet' packets.
Proof.
  unfold bundlingEnabled, Write.
  destruct (mInternLimit self =? 0), (mAggregationThreshold self =? 0);
    simpl; intros E; try discriminate E; reflexivity.
Qed.

Lemma Write_bundled (self : NetworkTraceHandler) (packets : list PacketTrace) :
  bundlingEnabled self = true ->
  Write' self packets = map write_bundle' (iteration_order (accumulate packets)).
Proof.
  unfold bundlingEnabled, Write.
  destruct (mInternLimit self =? 0), (mAggregationThreshold self =? 0);
    simpl; intros E; try discriminate E; reflexivity.
Qed.

(** C1 (lossless coverage): in both modes the [(timestamp, length)] pairs
    read back from the messages written for a batch are, as a multiset,
    the [(timestampNs, length)] pairs of the batch. *)
Theorem lossless_coverage (self : NetworkTraceHandler) (packets : list PacketTrace) :
  Forall PacketTrace.wf packets ->
  Permutation (flat_map recovered (Write' self packets)) (map sample packets).
Proof.
  intros Hwf. destruct (bundlingEnabled self) eqn:E.
  - rewrite (Write_bundled self packets E), flat_map_concat_map, map_map,
      <- flat_map_concat_map.
    rewrite (iteration_order_perm (accumulate packets)).
    rewrite (flat_map_ext_in _ (fun kv => time_and_len (snd kv))).
    + apply samples_accumulate.
    + intros kv Hin. now apply (recovered_write_bundle packets).
  - rewrite (Write_direct self packets E), flat_map_concat_map, map_map,
      <- flat_map_concat_map.
    rewrite (flat_map_ext _ (fun p => [sample p]) recovered_write_packet).
    clear. induction packets as [|p l IH]; simpl; [reflexivity|].
    now constructor.
Qed.


(** C3 (threshold gating): the fallback test of [Write] is the negation of
    [internLimit != 0 || aggregationThreshold != 0], and the messages of a
    non-empty batch are bundles exactly when one of the two is not zero;
    when both are zero there is one message per record, in arrival order,
    each with the timestamp and the length of its record; otherwise there
    is one message per distinct context key of the batch: the messages
    match, one to one and in order, a list of records of the batch with
    pairwise different contexts that covers every context of the batch,
    each message being the bundle of its key. *)
Theorem threshold_gating (self : NetworkTraceHandler) (packets : list PacketTrace) :
  (bundlingEnabled self = true <->
   mInternLimit self <> 0 \/ mAggregationThreshold self <> 0) /\
  (mInternLimit self = 0 /\ mAggregationThreshold self = 0 ->
   Write' self packets = map write_packet' packets /\
   List.length (Write' self packets) = List.length packets /\
   forall i p, nth_error packets i = Some p ->
     exists msg event,
       nth_error (Write' self packets) i = Some msg /\
       timestamp msg = PacketTrace.timestampNs p /\
       data msg = network_packet event /\
       NetworkPacketEvent.length event = Some (PacketTrace.length p)) /\
  (mInternLimit self <> 0 \/ mAggregationThreshold self <> 0 ->
   List.length (Write' self packets) = distinct_keys packets /\
   (forall msg, In msg (Write' self packets) ->
      exists b, data msg = network_packet_bundle b) /\
   exists keys,
     NoDup (map AGG_FIELDS keys) /\
     (forall p, In p packets ->
                exists key, In key keys /\ AGG_FIELDS key = AGG_FIELDS p) /\
     Forall2 (is_bundle_of if_indextoname packets) keys (Write' self packets)) /\
  (packets <> [] ->
   ((forall msg, In msg (Write' self packets) ->
       exists b, data msg = network_packet_bundle b)
    <-> mInternLimit self <> 0 \/ mAggregationThreshold self <> 0)).
Proof.
  assert (Hiff : bundlingEnabled self = true <->
                 mInternLimit self <> 0 \/ mAggregationThreshold self <> 0).
  { unfold bundlingEnabled. rewrite orb_true_iff, !negb_true_iff, !Z.eqb_neq.
    reflexivity. }
  assert (Hbundles : bundlingEnabled self = true ->
            forall msg, In msg (Write' self packets) ->
                        exists b, data msg = network_packet_bundle b).
  { intros Hen msg Hin. rewrite (Write_bundled self packets Hen) in Hin.
    apply in_map_iff in Hin. destruct Hin as [kv [<- _]]. eexists. reflexivity. }
  split; [exact Hiff|]. split; [|split].
  - intros [H1 H2].
    assert (E : bundlingEnabled self = false).
    { destruct (bundlingEnabled self); [|reflexivity].
      destruct (proj1 Hiff eq_refl); contradiction. }
    rewrite (Write_direct self packets E).
    split; [reflexivity|]. split; [apply length_map|].
    intros i p Hi. eexists. eexists.
    split; [apply map_nth_error; exact Hi|].
    split; [reflexivity|]. split; [reflexivity|].
    rewrite Fill_length. reflexivity.
  - intros Hor. apply Hiff in Hor.
    split; [|split; [exact (Hbundles Hor)|]];
      rewrite (Write_bundled self packets Hor);
      pose proof (accumulate_accumulated packets) as [ND EN CO].
    + rewrite length_map, (Permutation_length (iteration_order_perm _)).
      unfold distinct_keys.
      transitivity (List.length (keys_ctx (accumulate packets)));
        [unfold keys_ctx; now rewrite length_map|].
      apply Permutation_length. apply NoDup_Permutation.
      * exact ND.
      * apply NoDup_nodup.
      * intros x. rewrite nodup_In. split.
        -- intros Hx. apply in_keys_ctx in Hx. destruct Hx as [[k d] [Hin <-]].
           apply in_map. apply (EN k d Hin).
        -- intros Hx. apply in_map_iff in Hx. destruct Hx as [q [<- Hq]].
           now apply CO.
    + pose proof (iteration_order_perm (accumulate packets)) as Hperm.
      exists (map fst (iteration_order (accumulate packets))).
      split; [|split].
      * rewrite map_map.
        apply (Permutation_NoDup
                 (Permutation_sym
                    (Permutation_map (fun kv => AGG_FIELDS (fst kv)) Hperm))).
        exact ND.
      * intros p Hp. destruct (proj1 (in_keys_ctx _ _) (CO p Hp)) as [kv [Hin E]].
        exists (fst kv). split; [|exact E].
        apply in_map. apply (Permutation_in _ (Permutation_sym Hperm)). exact Hin.
      * apply Forall2_map_In. intros [k d] Hkv.
        apply (Permutation_in _ Hperm) in Hkv. destruct (EN k d Hkv) as [Hk Hd].
        split; [exact Hk|]. eexists. split; [reflexivity|].
        cbn [ctx packet_timestamps packet_lengths timestamp fst snd write_bundle].
        assert (Htl : time_and_len d = map sample (group k packets))
          by (rewrite Hd; apply details_of_time_and_len).
        rewrite Htl, !map_map, <- Hd.
        split; [reflexivity|]. split; [reflexivity|]. split; reflexivity.
  - intros Hne. split; [|intros Hor; apply Hbundles; now apply Hiff].
    intros Hall. destruct (bundlingEnabled self) eqn:E; [now apply Hiff|].
    exfalso. rewrite (Write_direct self packets E) in Hall.
    destruct packets as [|p l]; [congruence|].
    destruct (Hall (write_packet' p) (or_introl eq_refl)) as [b Hb].
    discriminate Hb.
Qed.

(** C8 (resolution-failure sentinel): for a record whose interface index
    resolves to no name, [Fill] writes the interface ["error"] and every
    other field as usual; the batch is written with as many messages as
    under any other resolver, and the message that carries the record
    has the interface ["error"]. *)
Theorem resolution_failure_sentinel (self : NetworkTraceHandler)
        (packets : list PacketTrace) (p : PacketTrace)
        (event : NetworkPacketEvent) :
  if_indextoname (PacketTrace.ifindex p) = None ->
  NetworkPacketEvent.interface (Fill' p event) = Some "error"%string /\
  NetworkPacketEvent.uid (Fill' p event) = Some (PacketTrace.uid p) /\
  NetworkPacketEvent.tag (Fill' p event) = Some (PacketTrace.tag p) /\
  NetworkPacketEvent.ip_proto (Fill' p event) = Some (PacketTrace.ipProto p) /\
  (forall resolver,
      List.length (Write' self packets) =
      List.length (Write resolver iteration_order self packets)) /\
  (Forall PacketTrace.wf packets -> In p packets ->
   exists msg, In msg (Write' self packets) /\
               In (sample p) (recovered msg) /\
               NetworkPacketEvent.interface (event_of msg) = Some "error"%string).
Proof.
  intros Hnone.
  assert (HF : forall q e, PacketTrace.ifindex q = PacketTrace.ifindex p ->
               NetworkPacketEvent.interface (Fill' q e) = Some "error"%string).
  { intros q e Hq. unfold Fill. rewrite Hq, Hnone. reflexivity. }
  split; [now apply HF|].
  split; [unfold Fill; rewrite Hnone; reflexivity|].
  split; [unfold Fill; rewrite Hnone; reflexivity|].
  split; [unfold Fill; rewrite Hnone; reflexivity|].
  split.
  - intros resolver. unfold Write.
    destruct ((mInternLimit self =? 0) && (mAggregationThreshold self =? 0));
      now rewrite !length_map.
  - intros Hwf Hp. destruct (bundlingEnabled self) eqn:E.
    + rewrite (Write_bundled self packets E).
      pose proof (accumulate_accumulated packets) as [ND EN CO].
      destruct (bundle_of_covered _ p (CO p Hp)) as [[k d] Ek].
      destruct (bundle_of_Some _ _ _ Ek) as [Hin Hctx]. simpl in Hctx.
      exists (write_bundle' (k, d)). split; [|split].
      * apply in_map. apply (Permutation_in _ (Permutation_sym (iteration_order_perm _))).
        exact Hin.
      * rewrite (recovered_write_bundle packets (k, d) Hwf Hin). simpl.
        destruct (EN k d Hin) as [_ ->]. rewrite details_of_time_and_len.
        apply in_map. apply filter_In. split; [exact Hp|].
        now apply BundleEq_iff.
      * unfold event_of, write_bundle. simpl. apply HF.
        unfold AGG_FIELDS in Hctx. congruence.
    + rewrite (Write_direct self packets E).
      exists (write_packet' p). split; [now apply in_map|]. split.
      * rewrite recovered_write_packet. now left.
      * unfold event_of, write_packet. simpl. now apply HF.
Qed.
End Messages.

(** ** The sample sessions *)

Lemma newest_first_perm (m : Bundles) : Permutation (newest_first m) m.
Proof. symmetry. apply Permutation_rev. Qed.

(** The documented example: three packets of one context, bundling on. *)
Example bundle_example :
  Write resolver0 newest_first handler_bundled [pkt1; pkt2; pkt5] =
  [ {| timestamp := 1;
       data := network_packet_bundle
         {| ctx := NetworkPacketEvent.mk (Some DIR_EGRESS) (Some "wlan0"%string)
                     None (Some 1000) (Some 123) (Some 6) (Some 16)
                     (Some 80) (Some 443);
            packet_timestamps := [0; 1; 4];
            packet_lengths := [72; 100; 456] |} |} ].
Proof. vm_compute. reflexivity. Qed.

(** The same batch with bundling off: three messages. *)
Example direct_example :
  map (fun m => (timestamp m, NetworkPacketEvent.length (event_of m)))
      (Write resolver0 newest_first handler_direct [pkt1; pkt2; pkt5]) =
  [(1, Some 72); (2, Some 100); (5, Some 456)].
Proof. vm_compute. reflexivity. Qed.

Lemma lossless_coverage_witness :
  Forall PacketTrace.wf batch /\
  Permutation (flat_map recovered (Write resolver0 newest_first handler_bundled batch))
              (map sample batch).
Proof.
  split; [exact batch_wf|].
  apply (lossless_coverage resolver0 newest_first newest_first_perm
           handler_bundled batch batch_wf).
Defined.


Lemma threshold_gating_witness :
  (mInternLimit handler_direct = 0 /\ mAggregationThreshold handler_direct = 0) /\
  List.length (Write resolver0 newest_first handler_direct batch) = 5%nat /\
  (mInternLimit handler_bundled <> 0 \/ mAggregationThreshold handler_bundled <> 0) /\
  List.length (Write resolver0 newest_first handler_bundled batch) = 2%nat /\
  exists keys,
    NoDup (map AGG_FIELDS keys) /\
    (forall p, In p batch ->
               exists key, In key keys /\ AGG_FIELDS key = AGG_FIELDS p) /\
    Forall2 (is_bundle_of resolver0 batch) keys
            (Write resolver0 newest_first handler_bundled batch).
Proof.
  assert (Hz : mInternLimit handler_direct = 0 /\ mAggregationThreshold handler_direct = 0)
    by (split; vm_compute; reflexivity).
  assert (Hnz : mInternLimit handler_bundled <> 0 \/ mAggregationThreshold handler_bundled <> 0)
    by (right; vm_compute; discriminate).
  split; [exact Hz|]. split; [|split; [exact Hnz|]].
  - destruct (threshold_gating resolver0 newest_first newest_first_perm
                handler_direct batch) as [_ [Hd _]].
    destruct (Hd Hz) as [_ [-> _]]. reflexivity.
  - destruct (threshold_gating resolver0 newest_first newest_first_perm
                handler_bundled batch) as [_ [_ [Hb _]]].
    destruct (Hb Hnz) as [Hlen [_ Hkeys]].
    split; [rewrite Hlen; vm_compute; reflexivity | exact Hkeys].
Defined.

Lemma resolution_failure_sentinel_witness :
  resolver0 (PacketTrace.ifindex pkt3) = None /\
  NetworkPacketEvent.interface (Fill resolver0 pkt3 NetworkPacketEvent.empty)
  = Some "error"%string /\
  exists msg, In msg (Write resolver0 newest_first handler_bundled batch) /\
              In (sample pkt3) (recovered msg) /\
              NetworkPacketEvent.interface (event_of msg) = Some "error"%string.
Proof.
  assert (Hnone : resolver0 (PacketTrace.ifindex pkt3) = None) by reflexivity.
  split; [exact Hnone|].
  destruct (resolution_failure_sentinel resolver0 newest_first newest_first_perm
              handler_bundled batch pkt3 NetworkPacketEvent.empty Hnone)
    as [H1 [_ [_ [_ [_ H2]]]]].
  split; [exact H1|].
  apply (H2 batch_wf). vm_compute. tauto.
Defined.

(** ** Ports *)

Lemma byte_values_In (b : Z) : 0 <= b < 256 -> In b byte_values.
Proof.
  intros Hb. unfold byte_values. apply in_map_iff. exists (Z.to_nat b).
  split; [lia|]. apply in_seq. lia.
Qed.

Lemma ntohs_table :
  forallb (fun b0 =>
    forallb (fun b1 => ntohs (b0 + 256 * b1) =? 256 * b0 + b1) byte_values)
    byte_values = true.
Proof. vm_compute. reflexivity. Qed.

(** A port whose wire bytes are [b0] then [b1] is read by a little-endian
    host as [b0 + 256 * b1]; [ntohs] gives the port number. *)
Lemma ntohs_bytes (b0 b1 : Z) :
  0 <= b0 < 256 -> 0 <= b1 < 256 -> ntohs (b0 + 256 * b1) = 256 * b0 + b1.
Proof.
  intros H0 H1. pose proof ntohs_table as T.
  rewrite forallb_forall in T. specialize (T b0 (byte_values_In b0 H0)).
  rewrite forallb_forall in T. specialize (T b1 (byte_values_In b1 H1)).
  now apply Z.eqb_eq.
Qed.

(** C6 (port swap law): [Fill] writes, for an egress record, the source port
    as local port and the destination port as remote port, and for an
    ingress record the destination port as local port and the source port as
    remote port, each passed through [ntohs]; [ntohs] turns the two wire
    bytes of a port into its number. *)
Theorem port_swap_law (if_indextoname : Z -> option string)
        (src : PacketTrace) (event : NetworkPacketEvent) :
  (PacketTrace.egress src = true ->
   NetworkPacketEvent.local_port (Fill if_indextoname src event)
     = Some (ntohs (PacketTrace.sport src)) /\
   NetworkPacketEvent.remote_port (Fill if_indextoname src event)
     = Some (ntohs (PacketTrace.dport src)) /\
   NetworkPacketEvent.direction (Fill if_indextoname src event) = Some DIR_EGRESS) /\
  (PacketTrace.egress src = false ->
   NetworkPacketEvent.local_port (Fill if_indextoname src event)
     = Some (ntohs (PacketTrace.dport src)) /\
   NetworkPacketEvent.remote_port (Fill if_indextoname src event)
     = Some (ntohs (PacketTrace.sport src)) /\
   NetworkPacketEvent.direction (Fill if_indextoname src event) = Some DIR_INGRESS) /\
  (forall b0 b1, 0 <= b0 < 256 -> 0 <= b1 < 256 ->
                 ntohs (b0 + 256 * b1) = 256 * b0 + b1).
Proof.
  split; [|split; [|exact ntohs_bytes]]; intros E; unfold Fill; rewrite E;
    destruct (if_indextoname (PacketTrace.ifindex src)); simpl; auto.
Qed.

(** [pkt1] leaves from port 80 to port 443; [pkt3] arrives on port 400 from
    port 53. *)
Lemma port_swap_law_witness :
  NetworkPacketEvent.local_port (Fill resolver0 pkt1 NetworkPacketEvent.empty) = Some 80 /\
  NetworkPacketEvent.remote_port (Fill resolver0 pkt1 NetworkPacketEvent.empty) = Some 443 /\
  NetworkPacketEvent.local_port (Fill resolver0 pkt3 NetworkPacketEvent.empty) = Some 400 /\
  NetworkPacketEvent.remote_port (Fill resolver0 pkt3 NetworkPacketEvent.empty) = Some 53.
Proof.
  destruct (port_swap_law resolver0 pkt1 NetworkPacketEvent.empty) as [He [_ _]].
  destruct (port_swap_law resolver0 pkt3 NetworkPacketEvent.empty) as [_ [Hi _]].
  destruct (He eq_refl) as [-> [-> _]]. destruct (Hi eq_refl) as [-> [-> _]].
  vm_compute. repeat split; reflexivity.
Defined.

(** ** Session setup *)

(** C9 (clamp law): after [OnSetup] the poll interval is the larger of the
    configured value and 100, a missing value counting as 0; setup never
    rejects a configuration. *)
Theorem clamp_law (self : NetworkTraceHandler) (config : NetworkPacketTraceConfig.t) :
  (forall x, NetworkPacketTraceConfig.raw_poll_ms config = Some x -> in_range 32 x) ->
  mPollMs (OnSetup self config) =
    Z.max (match NetworkPacketTraceConfig.raw_poll_ms config with
           | Some x => x
           | None => 0
           end) 100 /\
  (NetworkPacketTraceConfig.raw_poll_ms config = None ->
   mPollMs (OnSetup self config) = 100) /\
  (NetworkPacketTraceConfig.raw_poll_ms config = Some 0 ->
   mPollMs (OnSetup self config) = 100).
Proof.
  intros Hr.
  assert (E : mPollMs (OnSetup self config) =
              Z.max (NetworkPacketTraceConfig.poll_ms config) 100).
  { unfold OnSetup, NetworkPacketTraceConfig.poll_ms in *. cbn [mPollMs].
    assert (Hw : wrap32 (match NetworkPacketTraceConfig.raw_poll_ms config with
                         | Some v => v | None => 0 end)
                 = match NetworkPacketTraceConfig.raw_poll_ms config with
                   | Some v => v | None => 0 end).
    { unfold wrap32, wrap.
      destruct (NetworkPacketTraceConfig.raw_poll_ms config) as [x|];
        [apply Z.mod_small, (Hr x eq_refl) | reflexivity]. }
    rewrite Hw. destruct (Z.ltb_spec
      (match NetworkPacketTraceConfig.raw_poll_ms config with
       | Some v => v | None => 0 end) 100); lia. }
  unfold NetworkPacketTraceConfig.poll_ms in E.
  split; [exact E|]. split; intros Hc; rewrite E, Hc; reflexivity.
Qed.

Lemma clamp_law_witness :
  mPollMs (OnSetup handler0 config_bundled) = 100 /\
  mPollMs (OnSetup handler0 config_drop) = 1000 /\
  mPollMs (OnSetup handler0 config_empty) = 100.
Proof.
  split; [|split].
  - refine (proj1 (clamp_law handler0 config_bundled _)).
    intros x Hx. simpl in Hx. inversion Hx. unfold in_range. lia.
  - refine (proj1 (clamp_law handler0 config_drop _)).
    intros x Hx. simpl in Hx. inversion Hx. unfold in_range. lia.
  - refine (proj1 (clamp_law handler0 config_empty _)).
    intros x Hx. simpl in Hx. discriminate Hx.
Defined.

(** ** Drop flags *)

(** With all three drops configured, the one message written for [pkt1]
    still carries local port 80, remote port 443 and TCP flags 16. *)
Lemma drop_flags_counterexample :
  mDropLocalPort handler_drop = true /\
  mDropRemotePort handler_drop = true /\
  mDropTcpFlags handler_drop = true /\
  map (fun m => (NetworkPacketEvent.local_port (event_of m),
                 NetworkPacketEvent.remote_port (event_of m),
                 NetworkPacketEvent.tcp_flags (event_of m)))
      (Write resolver0 newest_first handler_drop [pkt1])
  = [(Some 80, Some 443, Some 16)] /\
  ~ drop_flags_honoured resolver0 newest_first handler_drop [pkt1] /\
  ~ drop_flags_honoured resolver0 newest_first handler_bundled [pkt1].
Proof.
  split; [reflexivity|]. split; [reflexivity|]. split; [reflexivity|].
  split; [vm_compute; reflexivity|].
  split; intros Hc.
  - destruct (Hc (write_packet resolver0 pkt1) (or_introl eq_refl)) as [_ [_ Ht]].
    specialize (Ht eq_refl). vm_compute in Ht. discriminate Ht.
  - assert (Hin : In (write_bundle resolver0 (pkt1, details_of [pkt1]))
                     (Write resolver0 newest_first handler_bundled [pkt1])).
    { vm_compute. left. reflexivity. }
    destruct (Hc _ Hin) as [_ [_ Ht]].
    specialize (Ht eq_refl). vm_compute in Ht. discriminate Ht.
Qed.

Lemma event_of_write_packet (if_indextoname : Z -> option string) (p : PacketTrace) :
  event_of (write_packet if_indextoname p) =
  Fill if_indextoname p
       (NetworkPacketEvent.set_length (PacketTrace.length p) NetworkPacketEvent.empty).
Proof. reflexivity. Qed.

Lemma event_of_write_bundle (if_indextoname : Z -> option string)
      (kv : BundleKey * BundleDetails) :
  event_of (write_bundle if_indextoname kv) =
  Fill if_indextoname (fst kv) NetworkPacketEvent.empty.
Proof. reflexivity. Qed.

(** The three fields [Fill] writes whatever the session's flags are. *)
Lemma Fill_ports_flags (if_indextoname : Z -> option string)
      (src : PacketTrace) (event : NetworkPacketEvent) :
  NetworkPacketEvent.local_port (Fill if_indextoname src event) =
    Some (ntohs (if PacketTrace.egress src then PacketTrace.sport src
                 else PacketTrace.dport src)) /\
  NetworkPacketEvent.remote_port (Fill if_indextoname src event) =
    Some (ntohs (if PacketTrace.egress src then PacketTrace.dport src
                 else PacketTrace.sport src)) /\
  NetworkPacketEvent.tcp_flags (Fill if_indextoname src event) =
    Some (PacketTrace.tcpFlags src).
Proof.
  unfold Fill. destruct (if_indextoname (PacketTrace.ifindex src));
    destruct (PacketTrace.egress src); simpl; auto.
Qed.

(** C4 (drop flags), as the code has it: [OnSetup] stores the three drop
    flags, and nothing reads them.  [Write] gives the same messages for two
    handlers that differ in these flags only, and every message carries the
    local port, the remote port and the TCP flags of a record of the batch
    (the record itself in direct mode, the key of the group in bundled
    mode). *)
Theorem drop_flags_inert (if_indextoname : Z -> option string)
        (iteration_order : Bundles -> Bundles)
        (self : NetworkTraceHandler) (config : NetworkPacketTraceConfig.t)
        (packets : list PacketTrace) :
  (forall m, Permutation (iteration_order m) m) ->
  (mDropLocalPort (OnSetup self config) = NetworkPacketTraceConfig.drop_local_port config /\
   mDropRemotePort (OnSetup self config) = NetworkPacketTraceConfig.drop_remote_port config /\
   mDropTcpFlags (OnSetup self config) = NetworkPacketTraceConfig.drop_tcp_flags config) /\
  (forall started pollMs dropLocal dropRemote dropTcp,
      Write if_indextoname iteration_order
        {| mStarted := started; mPollMs := pollMs;
           mInternLimit := mInternLimit self;
           mAggregationThreshold := mAggregationThreshold self;
           mDropLocalPort := dropLocal; mDropRemotePort := dropRemote;
           mDropTcpFlags := dropTcp |} packets
      = Write if_indextoname iteration_order self packets) /\
  (forall msg, In msg (Write if_indextoname iteration_order self packets) ->
     exists p, In p packets /\
       NetworkPacketEvent.local_port (event_of msg) =
         Some (ntohs (if PacketTrace.egress p then PacketTrace.sport p
                      else PacketTrace.dport p)) /\
       NetworkPacketEvent.remote_port (event_of msg) =
         Some (ntohs (if PacketTrace.egress p then PacketTrace.dport p
                      else PacketTrace.sport p)) /\
       NetworkPacketEvent.tcp_flags (event_of msg) = Some (PacketTrace.tcpFlags p)).
Proof.
  intros Hperm. split; [repeat split|]. split; [reflexivity|].
  intros msg Hin. unfold Write in Hin.
  destruct ((mInternLimit self =? 0) && (mAggregationThreshold self =? 0)).
  - apply in_map_iff in Hin. destruct Hin as [p [<- Hp]]. exists p.
    split; [exact Hp|]. rewrite event_of_write_packet. apply Fill_ports_flags.
  - apply in_map_iff in Hin. destruct Hin as [[k d] [<- Hkv]].
    apply (Permutation_in _ (Hperm _)) in Hkv.
    destruct (accumulate_entry _ _ _ Hkv) as [Hk _]. exists k.
    split; [exact Hk|]. rewrite event_of_write_bundle. apply Fill_ports_flags.
Qed.

Lemma drop_flags_inert_witness :
  mDropLocalPort (OnSetup handler0 config_drop) = true /\
  Write resolver0 newest_first handler_drop batch =
  Write resolver0 newest_first handler_direct batch.
Proof.
  destruct (drop_flags_inert resolver0 newest_first handler_direct config_drop
              batch newest_first_perm) as [[H1 _] [H2 _]].
  split; [exact H1|]. exact (H2 false 1000 true true true).
Defined.

(** ** Socket cookies *)

(** C10 (socket cookie): when the [getsockopt] call succeeds the cookie it
    produced is returned and [errno] is left alone; when it fails
    [NONEXISTENT_COOKIE] is returned and [errno] holds the error of the
    failed call, whatever the logging did to it in between.  The kernel
    never hands out 0 as a cookie, so 0 is returned exactly on failure. *)
Theorem getSocketCookie_contract (kernel : Z -> BpfUtils.sockopt_outcome)
        (ALOGE : Z -> Z) (sockFd junk errno : Z) :
  (forall c, kernel sockFd = BpfUtils.sockopt_ok c -> 0 < c < 2 ^ 64) ->
  (forall e, kernel sockFd = BpfUtils.sockopt_fail e -> 0 < e < 2 ^ 31) ->
  (forall c, kernel sockFd = BpfUtils.sockopt_ok c ->
     BpfUtils.getSocketCookie kernel ALOGE sockFd junk errno = (c, errno)) /\
  (forall e, kernel sockFd = BpfUtils.sockopt_fail e ->
     BpfUtils.getSocketCookie kernel ALOGE sockFd junk errno
     = (BpfUtils.NONEXISTENT_COOKIE, e)) /\
  (fst (BpfUtils.getSocketCookie kernel ALOGE sockFd junk errno)
   = BpfUtils.NONEXISTENT_COOKIE
   <-> exists e, kernel sockFd = BpfUtils.sockopt_fail e).
Proof.
  intros Hok Hfail.
  assert (Hneg : forall e, 0 < e < 2 ^ 31 -> wrap_int (- wrap_int (- e)) = e).
  { intros e He. unfold wrap_int.
    rewrite (Z.mod_small (- e + 2 ^ 31)) by lia.
    rewrite Z.mod_small by lia. lia. }
  unfold BpfUtils.getSocketCookie, BpfUtils.getsockopt.
  destruct (kernel sockFd) as [c|e] eqn:K; simpl.
  - split; [intros c' E; inversion E; reflexivity|].
    split; [intros e E; discriminate E|].
    split.
    + intros E. specialize (Hok c eq_refl). unfold BpfUtils.NONEXISTENT_COOKIE in E. lia.
    + intros [e E]. discriminate E.
  - rewrite (Hneg e (Hfail e eq_refl)).
    split; [intros c E; discriminate E|].
    split; [intros e' E; inversion E; reflexivity|].
    split; [intros _; now exists e | reflexivity].
Qed.

Lemma getSocketCookie_contract_witness :
  BpfUtils.getSocketCookie kernel0 (fun _ => 0) 5 77 0 = (0, 9) /\
  BpfUtils.getSocketCookie kernel0 (fun _ => 0) 3 77 0 = (42, 0).
Proof.
  split.
  - refine (proj1 (proj2 (getSocketCookie_contract kernel0 (fun _ => 0) 5 77 0 _ _))
              9 eq_refl).
    + intros c E. vm_compute in E. discriminate E.
    + intros e E. vm_compute in E. inversion E. lia.
  - refine (proj1 (getSocketCookie_contract kernel0 (fun _ => 0) 3 77 0 _ _)
              42 eq_refl).
    + intros c E. vm_compute in E. inversion E. lia.
    + intros e E. vm_compute in E. discriminate E.
Defined.

(** ** The map as a container *)

Lemma bundles_add_length (m : Bundles) (p : PacketTrace) :
  (List.length m <= List.length (bundles_add m p) <= S (List.length m))%nat.
Proof.
  induction m as [|[k d] m IH]; simpl; [lia|].
  destruct (BundleEq k p); simpl; lia.
Qed.

Lemma accumulate_length (l : list PacketTrace) :
  (List.length (accumulate l) <= List.length l)%nat.
Proof.
  induction l as [|p l IH] using rev_ind; [simpl; lia|].
  rewrite accumulate_snoc, length_app. simpl.
  pose proof (bundles_add_length (accumulate l) p). lia.
Qed.

Lemma accumulate_nil_iff (l : list PacketTrace) : accumulate l = [] <-> l = [].
Proof.
  split; [|intros ->; reflexivity].
  intros E. destruct l as [|p l]; [reflexivity|]. exfalso.
  pose proof (acc_cover _ _ (accumulate_accumulated (p :: l)) p (or_introl eq_refl)) as Hin.
  rewrite E in Hin. exact Hin.
Qed.

(** X6 (insert then look up): after the loop body has run for [p], looking
    [p] up gives the entry that was there with [p] added, or a fresh entry
    keyed by [p] when there was none; the entry of a record of another
    context is what it was. *)
Theorem bundles_add_lookup (m : Bundles) (p : PacketTrace) :
  bundle_of (bundles_add m p) p =
    Some (match bundle_of m p with
          | Some (key, details) => (key, add_packet details p)
          | None => (p, add_packet BundleDetails_init p)
          end) /\
  (forall q, BundleEq p q = false ->
             bundle_of (bundles_add m p) q = bundle_of m q).
Proof.
  unfold bundle_of. split.
  - induction m as [|[k d] m IH]; simpl.
    + now rewrite BundleEq_refl.
    + destruct (BundleEq k p) eqn:E; simpl; rewrite E; [reflexivity | exact IH].
  - intros q Hq. induction m as [|[k d] m IH]; simpl.
    + rewrite Hq. reflexivity.
    + destruct (BundleEq k p) eqn:E; simpl.
      * destruct (BundleEq k q) eqn:E'; [|reflexivity].
        rewrite (BundleEq_trans p k q) in Hq; [discriminate Hq | | exact E'].
        now rewrite BundleEq_sym.
      * destruct (BundleEq k q); [reflexivity | exact IH].
Qed.

(** X7 (bundle keys): the key of every accumulated bundle is the first
    record of its group in arrival order, so the first sample of the bundle
    is the key's own. *)
Theorem bundle_key_is_first (packets : list PacketTrace) (key : BundleKey)
        (details : BundleDetails) :
  In (key, details) (accumulate packets) ->
  first_of_group key packets = Some key /\
  hd_error (time_and_len details) = Some (sample key).
Proof.
  intros Hin.
  assert (Hfirst : first_of_group key packets = Some key).
  { revert key details Hin. unfold first_of_group.
    induction packets as [|p l IH] using rev_ind; intros key details Hin;
      [contradiction|].
    rewrite accumulate_snoc in Hin.
    pose proof (accumulate_accumulated l) as [ND EN CO].
    destruct (In_bundles_add _ p key details ND Hin)
      as [[H1 H2]|[[d0 [H1 [H2 H3]]]|[H1 [H2 H3]]]].
    - rewrite group_snoc, H2, app_nil_r. exact (IH key details H1).
    - rewrite group_snoc, H2. specialize (IH key d0 H1).
      destruct (group key l); [discriminate IH | exact IH].
    - subst key. rewrite group_snoc, BundleEq_refl.
      assert (E : group p l = []).
      { apply group_nil_iff. intros q Hq Hc. apply H3. rewrite <- Hc. now apply CO. }
      rewrite E. reflexivity. }
  split; [exact Hfirst|].
  destruct (accumulate_entry _ _ _ Hin) as [_ ->].
  rewrite details_of_time_and_len. unfold first_of_group in Hfirst.
  destruct (group key packets); [discriminate Hfirst|].
  simpl in *. inversion Hfirst. reflexivity.
Qed.

Lemma bundle_key_is_first_witness :
  In (pkt2, details_of [pkt2; pkt1; pkt5]) (accumulate batch) /\
  first_of_group pkt2 batch = Some pkt2.
Proof.
  assert (Hin : In (pkt2, details_of [pkt2; pkt1; pkt5]) (accumulate batch)).
  { vm_compute. left. reflexivity. }
  split; [exact Hin|].
  exact (proj1 (bundle_key_is_first batch pkt2 _ Hin)).
Defined.

(** [maxTs] dominates the start value and the timestamps met. *)
Lemma fold_add_packet_maxTs_ge (ps : list PacketTrace) (d : BundleDetails) :
  maxTs d <= maxTs (fold_left add_packet ps d) /\
  Forall (fun p => PacketTrace.timestampNs p <= maxTs (fold_left add_packet ps d)) ps.
Proof.
  revert d. induction ps as [|p ps IH]; intros d; simpl.
  - split; [lia | constructor].
  - destruct (IH (add_packet d p)) as [H1 H2]. simpl in H1.
    split; [lia|]. constructor; [lia | assumption].
Qed.

Lemma fold_add_packet_maxTs_in (ps : list PacketTrace) (d : BundleDetails) :
  maxTs (fold_left add_packet ps d) = maxTs d \/
  In (maxTs (fold_left add_packet ps d)) (map PacketTrace.timestampNs ps).
Proof.
  revert d. induction ps as [|p ps IH]; intros d; simpl.
  - now left.
  - destruct (IH (add_packet d p)) as [H|H]; [|right; now right].
    rewrite H. simpl.
    destruct (Z.max_spec (maxTs d) (PacketTrace.timestampNs p)) as [[_ ->]|[_ ->]];
      [right; now left | now left].
Qed.

(** X8 (largest timestamp): for well-formed records the [maxTs] of every
    accumulated bundle is the largest [timestampNs] of its group, [minTs]
    is below it, and every sample lies between the two. *)
Theorem maxTs_is_largest (packets : list PacketTrace) (key : BundleKey)
        (details : BundleDetails) :
  Forall PacketTrace.wf packets ->
  In (key, details) (accumulate packets) ->
  In (maxTs details) (map PacketTrace.timestampNs (group key packets)) /\
  Forall (fun p => minTs details <= PacketTrace.timestampNs p <= maxTs details)
         (group key packets) /\
  (0 <= minTs details /\ minTs details <= maxTs details /\
   maxTs details < 2 ^ 64).
Proof.
  intros Hwf Hin. destruct (accumulate_entry _ _ _ Hin) as [Hk ->].
  pose proof (group_wf key packets Hwf) as Hg.
  pose proof (group_key_nonempty key packets Hk) as Hne.
  destruct (details_of_minTs _ Hne Hg) as [Hmin Hle].
  unfold details_of in *.
  destruct (fold_add_packet_maxTs_ge (group key packets) BundleDetails_init)
    as [Hge Hall].
  assert (Hmax : In (maxTs (fold_left add_packet (group key packets) BundleDetails_init))
                    (map PacketTrace.timestampNs (group key packets))).
  { destruct (fold_add_packet_maxTs_in (group key packets) BundleDetails_init)
      as [E|Hi]; [|exact Hi].
    destruct (group key packets) as [|p ps]; [congruence|].
    inversion Hall as [|? ? Hp _]; subst. inversion Hg as [|? ? Wp _]; subst.
    destruct Wp as [[W0 _] _]. rewrite E in Hp |- *.
    cbn [map maxTs BundleDetails_init] in Hp |- *. left.
    unfold uint64_min in *. lia. }
  split; [exact Hmax|]. split.
  - rewrite Forall_forall in *. intros p Hp. split; [now apply Hle | now apply Hall].
  - apply in_map_iff in Hmin. destruct Hmin as [p1 [E1 Hp1]].
    apply in_map_iff in Hmax. destruct Hmax as [p2 [E2 Hp2]].
    rewrite Forall_forall in Hg, Hle, Hall.
    destruct (Hg p1 Hp1) as [[? ?] _]. destruct (Hg p2 Hp2) as [[? ?] _].
    specialize (Hle p2 Hp2). lia.
Qed.

Lemma maxTs_is_largest_witness :
  Forall PacketTrace.wf batch /\
  In (pkt2, details_of [pkt2; pkt1; pkt5]) (accumulate batch) /\
  In (maxTs (details_of [pkt2; pkt1; pkt5]))
     (map PacketTrace.timestampNs (group pkt2 batch)) /\
  maxTs (details_of [pkt2; pkt1; pkt5]) = 5.
Proof.
  assert (Hin : In (pkt2, details_of [pkt2; pkt1; pkt5]) (accumulate batch)).
  { vm_compute. left. reflexivity. }
  split; [exact batch_wf|]. split; [exact Hin|].
  split; [exact (proj1 (maxTs_is_largest batch pkt2 _ batch_wf Hin))|].
  vm_compute. reflexivity.
Defined.

(** ** More on the messages written for a batch *)

Lemma Fill_ext (if_indextoname : Z -> option string) (a b : PacketTrace)
      (event : NetworkPacketEvent) :
  AGG_FIELDS a = AGG_FIELDS b ->
  Fill if_indextoname a event = Fill if_indextoname b event.
Proof.
  unfold AGG_FIELDS, Fill. intros E. inversion E as [[E1 E2 E3 E4 E5 E6 E7 E8]].
  now rewrite E1, E2, E3, E4, E5, E6, E7, E8.
Qed.

Lemma Fill_set_length (if_indextoname : Z -> option string) (p : PacketTrace) (len : Z) :
  Fill if_indextoname p (NetworkPacketEvent.set_length len NetworkPacketEvent.empty) =
  NetworkPacketEvent.set_length len (Fill if_indextoname p NetworkPacketEvent.empty).
Proof.
  unfold Fill. destruct (if_indextoname (PacketTrace.ifindex p)); reflexivity.
Qed.


(** A batch of one context accumulates into one bundle. *)
Lemma accumulate_single_context (p0 : PacketTrace) (rest : list PacketTrace) :
  (forall q, In q rest -> AGG_FIELDS q = AGG_FIELDS p0) ->
  accumulate (p0 :: rest) = [(p0, details_of (p0 :: rest))].
Proof.
  induction rest as [|p l IH] using rev_ind; intros Hall; [reflexivity|].
  rewrite app_comm_cons, accumulate_snoc, details_of_snoc, IH.
  - simpl. assert (E : BundleEq p0 p = true).
    { apply BundleEq_iff. symmetry. apply Hall. apply in_or_app. right. now left. }
    now rewrite E.
  - intros q Hq. apply Hall. apply in_or_app. now left.
Qed.

Section MoreMessages.
Variable if_indextoname : Z -> option string.
Variable iteration_order : Bundles -> Bundles.
Hypothesis iteration_order_perm : forall m, Permutation (iteration_order m) m.

Local Abbreviation Fill' := (Fill if_indextoname).
Local Abbreviation Write' := (Write if_indextoname iteration_order).
Local Abbreviation write_packet' := (write_packet if_indextoname).
Local Abbreviation write_bundle' := (write_bundle if_indextoname).

Lemma Write_cases (self : NetworkTraceHandler) (packets : list PacketTrace) :
  (bundlingEnabled self = false /\ Write' self packets = map write_packet' packets) \/
  (bundlingEnabled self = true /\
   Write' self packets = map write_bundle' (iteration_order (accumulate packets))).
Proof.
  unfold bundlingEnabled, Write.
  destruct (mInternLimit self =? 0), (mAggregationThreshold self =? 0); simpl; auto.
Qed.

(** X1 (message count): in either mode nothing is written exactly for the
    empty batch, and a batch never gives more messages than it has
    records. *)
Theorem message_count_bounds (self : NetworkTraceHandler) (packets : list PacketTrace) :
  (Write' self packets = [] <-> packets = []) /\
  (List.length (Write' self packets) <= List.length packets)%nat.
Proof.
  destruct (Write_cases self packets) as [[_ ->]|[_ ->]].
  - split; [|rewrite length_map; lia].
    destruct packets; simpl; split; intros E; congruence.
  - assert (Hlen : List.length (map write_bundle' (iteration_order (accumulate packets)))
                   = List.length (accumulate packets)).
    { rewrite length_map. apply Permutation_length, iteration_order_perm. }
    split.
    + rewrite <- accumulate_nil_iff. split; intros E.
      * apply length_zero_iff_nil. rewrite <- Hlen, E. reflexivity.
      * apply length_zero_iff_nil. rewrite Hlen, E. reflexivity.
    + rewrite Hlen. apply accumulate_length.
Qed.

(** X2 (shape of a bundle): with bundling on and well-formed records, every
    message is a bundle whose two sequences have the same, non-zero length;
    one of the offsets is 0, every offset is a [uint64_t] and every length a
    [uint32_t]. *)
Theorem bundle_shape (self : NetworkTraceHandler) (packets : list PacketTrace)
        (msg : TracePacket) :
  Forall PacketTrace.wf packets ->
  bundlingEnabled self = true ->
  In msg (Write' self packets) ->
  exists b,
    data msg = network_packet_bundle b /\
    List.length (packet_timestamps b) = List.length (packet_lengths b) /\
    packet_timestamps b <> [] /\
    In 0 (packet_timestamps b) /\
    Forall (fun off => 0 <= off < 2 ^ 64) (packet_timestamps b) /\
    Forall (fun len => 0 <= len < 2 ^ 32) (packet_lengths b).
Proof.
  intros Hwf Hen Hin.
  destruct (Write_cases self packets) as [[E _]|[_ E]]; [congruence|].
  rewrite E in Hin. apply in_map_iff in Hin. destruct Hin as [[k d] [<- Hkv]].
  apply (Permutation_in _ (iteration_order_perm _)) in Hkv.
  destruct (accumulate_entry _ _ _ Hkv) as [Hk Hd].
  pose proof (group_wf k packets Hwf) as Hg.
  pose proof (group_key_nonempty k packets Hk) as Hne.
  destruct (details_of_minTs _ Hne Hg) as [Hmin _]. rewrite <- Hd in Hmin.
  eexists. split; [reflexivity|].
  cbn [packet_timestamps packet_lengths fst snd].
  assert (Htl : time_and_len d = map sample (group k packets))
    by (rewrite Hd; apply details_of_time_and_len).
  rewrite !Htl.
  split; [now rewrite !length_map|].
  split; [destruct (group k packets); [congruence | discriminate]|].
  split; [|split].
  - apply in_map_iff in Hmin. destruct Hmin as [p [Ep Hp]].
    apply in_map_iff. exists (sample p). split; [|now apply in_map].
    simpl. rewrite Ep, Z.sub_diag. reflexivity.
  - apply Forall_forall. intros off Hoff. apply in_map_iff in Hoff.
    destruct Hoff as [x [<- _]]. unfold wrap64, wrap. apply Z.mod_pos_bound. lia.
  - apply Forall_forall. intros len Hl. rewrite map_map in Hl.
    apply in_map_iff in Hl. destruct Hl as [p [<- Hp]].
    rewrite Forall_forall in Hg. destruct (Hg p Hp) as [_ [_ [Hlen _]]]. exact Hlen.
Qed.

(** X3 (context of a bundle): [Fill] reads the context fields only, so with
    bundling on the context block of the bundle that holds the sample of a
    record is the block [Fill] gives for that very record; the direct
    message of the record carries the same block with the length added. *)
Theorem bundle_context_valid (self : NetworkTraceHandler)
        (packets : list PacketTrace) (p : PacketTrace) :
  bundlingEnabled self = true ->
  In p packets ->
  exists kv,
    In (write_bundle' kv) (Write' self packets) /\
    In (sample p) (time_and_len (snd kv)) /\
    event_of (write_bundle' kv) = Fill' p NetworkPacketEvent.empty /\
    event_of (write_packet' p) =
      NetworkPacketEvent.set_length (PacketTrace.length p)
        (event_of (write_bundle' kv)).
Proof.
  intros Hen Hp.
  destruct (Write_cases self packets) as [[E _]|[_ E]]; [congruence|].
  pose proof (accumulate_accumulated packets) as [ND EN CO].
  destruct (bundle_of_covered _ p (CO p Hp)) as [[k d] Ek].
  destruct (bundle_of_Some _ _ _ Ek) as [Hin Hctx]. simpl in Hctx.
  assert (Hev : event_of (write_bundle' (k, d)) = Fill' p NetworkPacketEvent.empty).
  { rewrite event_of_write_bundle. now apply Fill_ext. }
  exists (k, d). split; [|split; [|split]].
  - rewrite E. apply in_map.
    apply (Permutation_in _ (Permutation_sym (iteration_order_perm _))). exact Hin.
  - simpl. destruct (EN k d Hin) as [_ ->]. rewrite details_of_time_and_len.
    apply in_map. apply filter_In. split; [exact Hp | now apply BundleEq_iff].
  - exact Hev.
  - rewrite Hev, event_of_write_packet. apply Fill_set_length.
Qed.

(** X4 (one context, one bundle): with bundling on, a batch whose records
    all share the context of its first record is written as a single bundle
    keyed by that record, holding every length in arrival order. *)
Theorem single_context_single_bundle (self : NetworkTraceHandler)
        (p0 : PacketTrace) (rest : list PacketTrace) :
  bundlingEnabled self = true ->
  (forall q, In q rest -> AGG_FIELDS q = AGG_FIELDS p0) ->
  Write' self (p0 :: rest) = [write_bundle' (p0, details_of (p0 :: rest))] /\
  exists b,
    data (write_bundle' (p0, details_of (p0 :: rest))) = network_packet_bundle b /\
    ctx b = Fill' p0 NetworkPacketEvent.empty /\
    packet_lengths b = map PacketTrace.length (p0 :: rest).
Proof.
  intros Hen Hall.
  destruct (Write_cases self (p0 :: rest)) as [[E _]|[_ E]]; [congruence|].
  split.
  - rewrite E, (accumulate_single_context p0 rest Hall).
    pose proof (iteration_order_perm [(p0, details_of (p0 :: rest))]) as Hp.
    apply Permutation_sym, Permutation_length_1_inv in Hp. rewrite Hp. reflexivity.
  - eexists. split; [reflexivity|]. split; [reflexivity|].
    cbn [packet_lengths snd]. rewrite details_of_time_and_len, map_map. reflexivity.
Qed.

End MoreMessages.

Lemma message_count_bounds_witness :
  (List.length (Write resolver0 newest_first handler_bundled batch)
   <= List.length batch)%nat /\
  Write resolver0 newest_first handler_bundled [] = [].
Proof.
  split.
  - exact (proj2 (message_count_bounds resolver0 newest_first newest_first_perm
                    handler_bundled batch)).
  - apply (proj1 (message_count_bounds resolver0 newest_first newest_first_perm
                    handler_bundled [])). reflexivity.
Defined.

Lemma bundle_shape_witness :
  Forall PacketTrace.wf batch /\
  bundlingEnabled handler_bundled = true /\
  In msg1000 (Write resolver0 newest_first handler_bundled batch) /\
  exists b,
    data msg1000 = network_packet_bundle b /\
    List.length (packet_timestamps b) = List.length (packet_lengths b) /\
    packet_timestamps b <> [] /\
    In 0 (packet_timestamps b) /\
    Forall (fun off => 0 <= off < 2 ^ 64) (packet_timestamps b) /\
    Forall (fun len => 0 <= len < 2 ^ 32) (packet_lengths b).
Proof.
  assert (Hen : bundlingEnabled handler_bundled = true) by (vm_compute; reflexivity).
  assert (Hin : In msg1000 (Write resolver0 newest_first handler_bundled batch)).
  { vm_compute. right. left. reflexivity. }
  split; [exact batch_wf|]. split; [exact Hen|]. split; [exact Hin|].
  exact (bundle_shape resolver0 newest_first newest_first_perm handler_bundled
           batch msg1000 batch_wf Hen Hin).
Defined.

Lemma bundle_context_valid_witness :
  bundlingEnabled handler_bundled = true /\
  In pkt5 batch /\
  exists kv,
    In (write_bundle resolver0 kv) (Write resolver0 newest_first handler_bundled batch) /\
    In (sample pkt5) (time_and_len (snd kv)) /\
    event_of (write_bundle resolver0 kv) = Fill resolver0 pkt5 NetworkPacketEvent.empty /\
    event_of (write_packet resolver0 pkt5) =
      NetworkPacketEvent.set_length (PacketTrace.length pkt5)
        (event_of (write_bundle resolver0 kv)).
Proof.
  assert (Hen : bundlingEnabled handler_bundled = true) by (vm_compute; reflexivity).
  assert (Hin : In pkt5 batch) by (vm_compute; tauto).
  split; [exact Hen|]. split; [exact Hin|].
  exact (bundle_context_valid resolver0 newest_first newest_first_perm
           handler_bundled batch pkt5 Hen Hin).
Defined.

Lemma single_context_single_bundle_witness :
  bundlingEnabled handler_bundled = true /\
  Write resolver0 newest_first handler_bundled [pkt2; pkt1; pkt5] = [msg1000].
Proof.
  assert (Hen : bundlingEnabled handler_bundled = true) by (vm_compute; reflexivity).
  split; [exact Hen|].
  refine (proj1 (single_context_single_bundle resolver0 newest_first newest_first_perm
                   handler_bundled pkt2 [pkt1; pkt5] Hen _)).
  intros q [<-|[<-|[]]]; reflexivity.
Defined.


(** ** Byte order *)

(** X9 (byte order): on 16-bit values [ntohs] is its own inverse and stays
    within 16 bits, so the two ports [Fill] writes for a well-formed record
    are port numbers, and converting them back gives the fields of the
    record. *)
Theorem ntohs_involutive (if_indextoname : Z -> option string)
        (src : PacketTrace) (event : NetworkPacketEvent) :
  PacketTrace.wf src ->
  (forall x, 0 <= x < 2 ^ 16 -> ntohs (ntohs x) = x /\ 0 <= ntohs x < 2 ^ 16) /\
  exists lp rp,
    NetworkPacketEvent.local_port (Fill if_indextoname src event) = Some lp /\
    NetworkPacketEvent.remote_port (Fill if_indextoname src event) = Some rp /\
    0 <= lp < 2 ^ 16 /\ 0 <= rp < 2 ^ 16 /\
    (if PacketTrace.egress src
     then ntohs lp = PacketTrace.sport src /\ ntohs rp = PacketTrace.dport src
     else ntohs lp = PacketTrace.dport src /\ ntohs rp = PacketTrace.sport src).
Proof.
  intros Hwf.
  assert (Hn : forall x, 0 <= x < 2 ^ 16 -> ntohs (ntohs x) = x /\ 0 <= ntohs x < 2 ^ 16).
  { intros x Hx. change (2 ^ 16) with 65536 in *.
    assert (E : x = x mod 256 + 256 * (x / 256)).
    { rewrite Z.add_comm. apply Z.div_mod. lia. }
    assert (H0 : 0 <= x mod 256 < 256) by (apply Z.mod_pos_bound; lia).
    assert (H1 : 0 <= x / 256 < 256).
    { split; [apply Z.div_pos; lia | apply Z.div_lt_upper_bound; lia]. }
    assert (B : forall b0 b1, 0 <= b0 < 256 -> 0 <= b1 < 256 ->
                ntohs (ntohs (b0 + 256 * b1)) = b0 + 256 * b1 /\
                0 <= ntohs (b0 + 256 * b1) < 65536).
    { intros b0 b1 Hb0 Hb1. rewrite (ntohs_bytes _ _ Hb0 Hb1).
      replace (256 * b0 + b1) with (b1 + 256 * b0) by lia.
      rewrite (ntohs_bytes _ _ Hb1 Hb0). lia. }
    specialize (B _ _ H0 H1). rewrite <- E in B. exact B. }
  split; [exact Hn|].
  destruct Hwf as [_ [_ [_ [_ [_ [Hs [Hd _]]]]]]]. unfold in_range in Hs, Hd.
  destruct (Hn _ Hs) as [Is Rs]. destruct (Hn _ Hd) as [Id Rd].
  destruct (Fill_ports_flags if_indextoname src event) as [-> [-> _]].
  eexists. eexists. split; [reflexivity|]. split; [reflexivity|].
  destruct (PacketTrace.egress src); auto.
Qed.

Lemma ntohs_involutive_witness :
  PacketTrace.wf pkt1 /\ ntohs (ntohs 0x5000) = 0x5000.
Proof.
  assert (Hwf : PacketTrace.wf pkt1).
  { repeat split; vm_compute; congruence. }
  split; [exact Hwf|].
  refine (proj1 (proj1 (ntohs_involutive resolver0 pkt1 NetworkPacketEvent.empty Hwf)
                   0x5000 _)).
  split; [discriminate | reflexivity].
Defined.

(** ** Mixing a value into the seed *)

Lemma lxor_cancel_l (s x y : Z) : Z.lxor s x = Z.lxor s y -> x = y.
Proof.
  intros E. apply (f_equal (Z.lxor s)) in E.
  now rewrite <- !Z.lxor_assoc, Z.lxor_nilpotent, !Z.lxor_0_l in E.
Qed.

Lemma mod_add_cancel (m k a b : Z) :
  0 < m -> 0 <= a < m -> 0 <= b < m ->
  (a + k) mod m = (b + k) mod m -> a = b.
Proof.
  intros Hm Ha Hb E.
  assert (D : ((a + k) - (b + k)) mod m = 0).
  { rewrite Zminus_mod, E, Z.sub_diag. apply Zmod_0_l. }
  replace (a + k - (b + k)) with (a - b) in D by lia.
  apply Z.mod_divide in D; [|lia]. destruct D as [q Hq].
  assert (q = 0) by nia. subst q. lia.
Qed.

Lemma BundleHash_last (H : StdHash) (a : BundleKey) :
  BundleHash H a =
  HashCombine H (seed_before_tcpFlags H a)
              (wrap_size H (hash_u8 H (PacketTrace.tcpFlags a))).
Proof. unfold BundleHash, seed_before_tcpFlags. cbv zeta. exact eq_refl. Qed.

Lemma seed_before_tcpFlags_ext (H : StdHash) (a b : BundleKey) :
  PacketTrace.ifindex a = PacketTrace.ifindex b ->
  PacketTrace.uid a = PacketTrace.uid b ->
  PacketTrace.tag a = PacketTrace.tag b ->
  PacketTrace.sport a = PacketTrace.sport b ->
  PacketTrace.dport a = PacketTrace.dport b ->
  PacketTrace.egress a = PacketTrace.egress b ->
  PacketTrace.ipProto a = PacketTrace.ipProto b ->
  seed_before_tcpFlags H a = seed_before_tcpFlags H b.
Proof.
  unfold seed_before_tcpFlags. intros E1 E2 E3 E4 E5 E6 E7. congruence.
Qed.

(** X10 (one mixing step): for a fixed seed, [HashCombine] sends different
    [size_t] hash values to different seeds; hence two keys that agree on
    the first seven context fields and whose [tcpFlags] hash differently
    have different [BundleHash]es. *)
Theorem HashCombine_injective (H : StdHash) (a b : BundleKey) :
  0 <= size_bits H ->
  (forall seed h1 h2,
      0 <= h1 < 2 ^ size_bits H -> 0 <= h2 < 2 ^ size_bits H ->
      HashCombine H seed h1 = HashCombine H seed h2 -> h1 = h2) /\
  (PacketTrace.ifindex a = PacketTrace.ifindex b ->
   PacketTrace.uid a = PacketTrace.uid b ->
   PacketTrace.tag a = PacketTrace.tag b ->
   PacketTrace.sport a = PacketTrace.sport b ->
   PacketTrace.dport a = PacketTrace.dport b ->
   PacketTrace.egress a = PacketTrace.egress b ->
   PacketTrace.ipProto a = PacketTrace.ipProto b ->
   wrap_size H (hash_u8 H (PacketTrace.tcpFlags a)) <>
   wrap_size H (hash_u8 H (PacketTrace.tcpFlags b)) ->
   BundleHash H a <> BundleHash H b).
Proof.
  intros Hbits.
  assert (Hm : 0 < 2 ^ size_bits H) by (apply Z.pow_pos_nonneg; lia).
  assert (Hinj : forall seed h1 h2,
      0 <= h1 < 2 ^ size_bits H -> 0 <= h2 < 2 ^ size_bits H ->
      HashCombine H seed h1 = HashCombine H seed h2 -> h1 = h2).
  { intros seed h1 h2 H1 H2 E. unfold HashCombine in E.
    apply lxor_cancel_l in E. unfold wrap_size at 1 3 in E. unfold wrap in E.
    rewrite <- !Z.add_assoc in E.
    exact (mod_add_cancel _ _ h1 h2 Hm H1 H2 E). }
  split; [exact Hinj|].
  intros E1 E2 E3 E4 E5 E6 E7 Hne Hc. apply Hne.
  rewrite (BundleHash_last H a), (BundleHash_last H b) in Hc.
  rewrite (seed_before_tcpFlags_ext H a b E1 E2 E3 E4 E5 E6 E7) in Hc.
  apply Hinj in Hc; [exact Hc | | ];
    unfold wrap_size, wrap; apply Z.mod_pos_bound; exact Hm.
Qed.

Lemma HashCombine_injective_witness :
  BundleHash identity_hash pkt1 <> BundleHash identity_hash (with_sample pkt0 1 72) /\
  BundleHash identity_hash pkt1 <>
  BundleHash identity_hash (PacketTrace.mk 1 2 72 1000 123 0x5000 0xbb01 true 6 18).
Proof.
  split; [vm_compute; discriminate|].
  refine (proj2 (HashCombine_injective identity_hash pkt1
                   (PacketTrace.mk 1 2 72 1000 123 0x5000 0xbb01 true 6 18) _)
            eq_refl eq_refl eq_refl eq_refl eq_refl eq_refl eq_refl _).
  - vm_compute. discriminate.
  - vm_compute. discriminate.
Defined.

(** ** Setup and the mode of [Write] *)

(** X11 (setup selects the mode): what [Write] does after [OnSetup] depends
    on the configuration only, not on what the handler held before;
    without thresholds (missing or zero) each record gets its own message,
    and with a non-zero [uint32_t] threshold the batch is bundled. *)
Theorem setup_selects_mode (if_indextoname : Z -> option string)
        (iteration_order : Bundles -> Bundles)
        (self other : NetworkTraceHandler)
        (config : NetworkPacketTraceConfig.t) (packets : list PacketTrace) :
  in_range 32 (NetworkPacketTraceConfig.intern_limit config) ->
  in_range 32 (NetworkPacketTraceConfig.aggregation_threshold config) ->
  Write if_indextoname iteration_order (OnSetup self config) packets =
  Write if_indextoname iteration_order (OnSetup other config) packets /\
  (NetworkPacketTraceConfig.intern_limit config = 0 /\
   NetworkPacketTraceConfig.aggregation_threshold config = 0 ->
   Write if_indextoname iteration_order (OnSetup self config) packets =
   map (write_packet if_indextoname) packets) /\
  (NetworkPacketTraceConfig.intern_limit config <> 0 \/
   NetworkPacketTraceConfig.aggregation_threshold config <> 0 ->
   Write if_indextoname iteration_order (OnSetup self config) packets =
   map (write_bundle if_indextoname) (iteration_order (accumulate packets))).
Proof.
  intros Hi Ha. unfold Write, OnSetup. cbn [mInternLimit mAggregationThreshold].
  unfold wrap32, wrap, in_range in *. rewrite !Z.mod_small by assumption.
  split; [reflexivity|]. split.
  - intros [-> ->]. reflexivity.
  - intros Hor.
    destruct (Z.eqb_spec (NetworkPacketTraceConfig.intern_limit config) 0);
      destruct (Z.eqb_spec (NetworkPacketTraceConfig.aggregation_threshold config) 0);
      simpl; try reflexivity. lia.
Qed.

Lemma setup_selects_mode_witness :
  Write resolver0 newest_first (OnSetup handler_bundled config_empty) batch =
  map (write_packet resolver0) batch /\
  Write resolver0 newest_first (OnSetup handler_direct config_bundled) batch =
  map (write_bundle resolver0) (newest_first (accumulate batch)).
Proof.
  assert (R0 : in_range 32 0) by (unfold in_range; lia).
  assert (R10 : in_range 32 10) by (unfold in_range; lia).
  split.
  - exact (proj1 (proj2 (setup_selects_mode resolver0 newest_first handler_bundled
                           handler0 config_empty batch R0 R0))
             (conj eq_refl eq_refl)).
  - refine (proj2 (proj2 (setup_selects_mode resolver0 newest_first handler_direct
                            handler0 config_bundled batch R0 R10)) _).
    right. discriminate.
Defined.

(** ** Socket cookies and what cannot reach them *)

(** X12 (nothing leaks into the cookie): neither the indeterminate initial
    content of [sock_cookie] nor what logging does to [errno] has any
    influence on the cookie returned or on [errno] at return. *)
Theorem getSocketCookie_independent (kernel : Z -> BpfUtils.sockopt_outcome)
        (ALOGE1 ALOGE2 : Z -> Z) (sockFd junk1 junk2 errno : Z) :
  BpfUtils.getSocketCookie kernel ALOGE1 sockFd junk1 errno =
  BpfUtils.getSocketCookie kernel ALOGE2 sockFd junk2 errno.
Proof.
  unfold BpfUtils.getSocketCookie, BpfUtils.getsockopt.
  destruct (kernel sockFd); reflexivity.
Qed.

(** ** The session and its poller *)

Lemma count_Stop_app (a b : list PollerCall) :
  count_Stop (a ++ b) = (count_Stop a + count_Stop b)%nat.
Proof. unfold count_Stop. now rewrite filter_app, length_app. Qed.

Lemma count_started_app (a b : list PollerCall) :
  count_started (a ++ b) = (count_started a + count_started b)%nat.
Proof. unfold count_started. now rewrite filter_app, length_app. Qed.

Lemma balanced_snoc (calls : list PollerCall) (c : PollerCall) :
  balanced calls ->
  (count_Stop (calls ++ [c]) <= count_started (calls ++ [c]))%nat ->
  balanced (calls ++ [c]).
Proof.
  intros Hb Hc n. rewrite firstn_app.
  destruct (Nat.le_gt_cases n (List.length calls)) as [Hn|Hn].
  - replace (n - List.length calls)%nat with 0%nat by lia.
    simpl. rewrite app_nil_r. apply Hb.
  - rewrite firstn_all2 by lia.
    destruct (n - List.length calls)%nat as [|k] eqn:E; [lia|].
    simpl. rewrite firstn_nil. exact Hc.
Qed.

(** What every callback keeps true of a handler and the calls made. *)
Lemma session_step_invariant (Start_result : list PollerCall -> Z -> bool)
      (st : NetworkTraceHandler * list PollerCall) (ev : SessionEvent) :
  balanced (snd st) /\
  (count_Stop (snd st) + (if mStarted (fst st) then 1 else 0)
   <= count_started (snd st))%nat ->
  balanced (snd (session_step Start_result st ev)) /\
  (count_Stop (snd (session_step Start_result st ev))
   + (if mStarted (fst (session_step Start_result st ev)) then 1 else 0)
   <= count_started (snd (session_step Start_result st ev)))%nat.
Proof.
  destruct st as [h calls]. intros [Hb Hc]. simpl in Hb, Hc.
  destruct ev as [config| |]; simpl.
  - split; assumption.
  - assert (Hn : (count_Stop (calls ++ [poller_Start (mPollMs h)
                                          (Start_result calls (mPollMs h))])
                  + (if Start_result calls (mPollMs h) then 1 else 0)
                  <= count_started (calls ++ [poller_Start (mPollMs h)
                                                (Start_result calls (mPollMs h))]))%nat).
    { rewrite count_Stop_app, count_started_app. unfold count_Stop, count_started in *.
      simpl. destruct (Start_result calls (mPollMs h)), (mStarted h); simpl in *; lia. }
    split; [apply balanced_snoc; [assumption | lia] | exact Hn].
  - destruct (mStarted h).
    + assert (Hn : (count_Stop (calls ++ [poller_Stop])
                    <= count_started (calls ++ [poller_Stop]))%nat).
      { rewrite count_Stop_app, count_started_app. unfold count_Stop, count_started in *.
        simpl. lia. }
      split; [apply balanced_snoc; assumption | lia].
    + split; [assumption | lia].
Qed.

(** X13 (stops are matched): whatever the order of the callbacks and
    whatever the poller answers, a handler that begins not started never
    calls [Stop] more often than [Start] has succeeded so far, and while it
    is marked started one successful [Start] is still unmatched. *)
Theorem stops_balanced (Start_result : list PollerCall -> Z -> bool)
        (events : list SessionEvent) (self : NetworkTraceHandler) :
  mStarted self = false ->
  balanced (snd (session_run Start_result events (self, []))) /\
  (count_Stop (snd (session_run Start_result events (self, [])))
   + (if mStarted (fst (session_run Start_result events (self, []))) then 1 else 0)
   <= count_started (snd (session_run Start_result events (self, []))))%nat.
Proof.
  intros Hs.
  assert (Hgen : forall st,
    balanced (snd st) /\
    (count_Stop (snd st) + (if mStarted (fst st) then 1 else 0)
     <= count_started (snd st))%nat ->
    balanced (snd (session_run Start_result events st)) /\
    (count_Stop (snd (session_run Start_result events st))
     + (if mStarted (fst (session_run Start_result events st)) then 1 else 0)
     <= count_started (snd (session_run Start_result events st)))%nat).
  { unfold session_run. induction events as [|ev events IH]; intros st Hst;
      [exact Hst|].
    simpl. apply IH. now apply session_step_invariant. }
  apply Hgen. simpl. rewrite Hs. split; [|unfold count_Stop, count_started; simpl; lia].
  intros n. rewrite firstn_nil. unfold count_Stop, count_started. simpl. lia.
Qed.

(** Against a poller that runs one session at a time: the first start
    succeeds and the following stop reaches the poller, a second stop does
    not; then a start succeeds, a second one is refused, which clears
    [mStarted], so the last stop makes no call. *)
Lemma stops_balanced_witness :
  mStarted handler0 = false /\
  snd (session_run single_poller
         [ev_OnSetup config_empty; ev_OnStart; ev_OnStop; ev_OnStop; ev_OnStart;
          ev_OnStart; ev_OnStop] (handler0, []))
  = [poller_Start 100 true; poller_Stop; poller_Start 100 true;
     poller_Start 100 false] /\
  balanced (snd (session_run single_poller
         [ev_OnSetup config_empty; ev_OnStart; ev_OnStop; ev_OnStop; ev_OnStart;
          ev_OnStart; ev_OnStop] (handler0, []))).
Proof.
  split; [reflexivity|]. split; [vm_compute; reflexivity|].
  exact (proj1 (stops_balanced single_poller
                  [ev_OnSetup config_empty; ev_OnStart; ev_OnStop; ev_OnStop;
                   ev_OnStart; ev_OnStart; ev_OnStop] handler0 eq_refl)).
Defined.

(** X14 (start then stop): [OnStart] followed by [OnStop] leaves the
    handler not started with its configuration untouched; the poller sees a
    [Stop] after the [Start] exactly when the [Start] was answered [true],
    and a second [OnStop] changes nothing. *)
Theorem start_stop_round_trip (Start_result : list PollerCall -> Z -> bool)
        (self : NetworkTraceHandler) (calls : list PollerCall) :
  fst (OnStop (fst (OnStart Start_result self calls))
              (snd (OnStart Start_result self calls)))
    = set_mStarted self false /\
  snd (OnStop (fst (OnStart Start_result self calls))
              (snd (OnStart Start_result self calls)))
    = calls ++ poller_Start (mPollMs self) (Start_result calls (mPollMs self))
            :: (if Start_result calls (mPollMs self) then [poller_Stop] else []) /\
  OnStop (fst (OnStop self calls)) (snd (OnStop self calls)) = OnStop self calls.
Proof.
  unfold OnStop, OnStart. cbn [fst snd mStarted set_mStarted mPollMs].
  split; [reflexivity|]. split; [|reflexivity].
  destruct (Start_result calls (mPollMs self)); [|reflexivity].
  rewrite <- app_assoc. reflexivity.
Qed.

Lemma session_step_floor (Start_result : list PollerCall -> Z -> bool)
      (st : NetworkTraceHandler * list PollerCall) (ev : SessionEvent) :
  100 <= mPollMs (fst st) < 2 ^ 32 /\ Forall above_floor (snd st) ->
  100 <= mPollMs (fst (session_step Start_result st ev)) < 2 ^ 32 /\
  Forall above_floor (snd (session_step Start_result st ev)).
Proof.
  destruct st as [h calls]. intros [Hp Hc]. simpl in Hp, Hc.
  destruct ev as [config| |]; simpl.
  - split; [|assumption]. unfold wrap32, wrap.
    pose proof (Z.mod_pos_bound (NetworkPacketTraceConfig.poll_ms config) (2 ^ 32)
                  ltac:(lia)) as Hb.
    destruct (Z.ltb_spec (NetworkPacketTraceConfig.poll_ms config mod 2 ^ 32) 100); lia.
  - split; [assumption|]. apply Forall_app. split; [assumption|].
    constructor; [exact Hp | constructor].
  - split; [assumption|]. destruct (mStarted h); [|assumption].
    apply Forall_app. split; [assumption|]. constructor; [exact I | constructor].
Qed.

(** X15 (poll interval floor): once a handler has been set up, every
    [Start] call it ever makes to the poller, whatever callbacks and
    further setups follow, asks for an interval of at least 100 ms that
    fits [uint32_t]. *)
Theorem start_interval_floor (Start_result : list PollerCall -> Z -> bool)
        (config : NetworkPacketTraceConfig.t) (events : list SessionEvent)
        (self : NetworkTraceHandler) :
  Forall above_floor
    (snd (session_run Start_result (ev_OnSetup config :: events) (self, []))) /\
  100 <= mPollMs (fst (session_run Start_result (ev_OnSetup config :: events)
                         (self, []))).
Proof.
  assert (Hgen : forall evs st,
    100 <= mPollMs (fst st) < 2 ^ 32 /\ Forall above_floor (snd st) ->
    100 <= mPollMs (fst (session_run Start_result evs st)) < 2 ^ 32 /\
    Forall above_floor (snd (session_run Start_result evs st))).
  { unfold session_run. induction evs as [|ev evs IH]; intros st Hst; [exact Hst|].
    simpl. apply IH. now apply session_step_floor. }
  assert (H0 : 100 <= mPollMs (OnSetup self config) < 2 ^ 32).
  { unfold OnSetup, wrap32, wrap. cbn [mPollMs].
    pose proof (Z.mod_pos_bound (NetworkPacketTraceConfig.poll_ms config) (2 ^ 32)
                  ltac:(lia)) as Hb.
    destruct (Z.ltb_spec (NetworkPacketTraceConfig.poll_ms config mod 2 ^ 32) 100); lia. }
  destruct (Hgen events (OnSetup self config, [])) as [H1 H2].
  { split; [exact H0 | constructor]. }
  split; [exact H2 | apply H1].
Qed.

(** ** synchronizeKernelRCU *)

Section KernelRCUFacts.
Variable os_socket : Z -> Z -> Z -> KernelRCU.sys_outcome.
Variable os_close : Z -> KernelRCU.sys_outcome.
Variable ALOGE : Z -> Z.

(** Descriptors are not negative and error codes are positive [int]s. *)
Hypothesis socket_fd : forall d t p fd, os_socket d t p = KernelRCU.sys_ok fd -> 0 <= fd.
Hypothesis socket_err :
  forall d t p e, os_socket d t p = KernelRCU.sys_fail e -> 0 < e < 2 ^ 31.
Hypothesis close_err :
  forall fd e, os_close fd = KernelRCU.sys_fail e -> 0 < e < 2 ^ 31.

Local Abbreviation run := (KernelRCU.synchronizeKernelRCU os_socket os_close ALOGE).
Local Abbreviation the_socket :=
  (os_socket KernelRCU.AF_KEY (Z.lor KernelRCU.SOCK_RAW KernelRCU.SOCK_CLOEXEC)
             KernelRCU.PF_KEY_V2).

Lemma wrap_int_neg (e : Z) : 0 < e < 2 ^ 31 -> wrap_int (- e) = - e.
Proof. intros He. unfold wrap_int. rewrite Z.mod_small by lia. lia. Qed.

(** X16 (result of synchronizeKernelRCU): the result is 0 exactly when the
    PF_KEY socket was opened and closed; when a call fails it is the
    negated error code of that call, taken before logging can disturb
    [errno]; it is never positive. *)
Theorem synchronizeKernelRCU_result (st : KernelRCU.SysState) :
  (forall e, the_socket = KernelRCU.sys_fail e -> fst (run st) = - e) /\
  (forall fd e, the_socket = KernelRCU.sys_ok fd ->
                os_close fd = KernelRCU.sys_fail e -> fst (run st) = - e) /\
  (fst (run st) = 0 <->
   exists fd v, the_socket = KernelRCU.sys_ok fd /\ os_close fd = KernelRCU.sys_ok v) /\
  fst (run st) <= 0.
Proof.
  unfold KernelRCU.synchronizeKernelRCU, KernelRCU.socket, KernelRCU.close.
  destruct the_socket as [fd|e] eqn:Es.
  - pose proof (socket_fd _ _ _ _ Es) as Hfd.
    destruct (Z.ltb_spec fd 0) as [Hlt|_]; [lia|].
    destruct (os_close fd) as [v|e] eqn:Ec; cbn [fst snd negb Z.eqb KernelRCU.errno].
    + split; [intros e E; discriminate E|].
      split; [intros fd' e E; inversion E; subst; congruence|].
      split; [|lia]. split; [intros _; now exists fd, v | reflexivity].
    + pose proof (close_err _ _ Ec) as He. rewrite (wrap_int_neg e He).
      split; [intros e' E; discriminate E|].
      split; [intros fd' e' E E'; inversion E; subst; congruence|].
      split; [|lia]. split; [lia|].
      intros [fd' [v [E E']]]. inversion E; subst. congruence.
  - pose proof (socket_err _ _ _ _ Es) as He.
    cbn [fst snd Z.ltb Z.compare KernelRCU.errno]. rewrite (wrap_int_neg e He).
    split; [intros e' E; inversion E; reflexivity|].
    split; [intros fd e' E; discriminate E|].
    split; [|lia]. split; [lia|].
    intros [fd [v [E _]]]. discriminate E.
Qed.

(** X17 (no descriptor left open): the function issues the socket call
    once, then closes the descriptor it got exactly when it got one, and
    issues nothing else; on success [errno] is what it was, and after a
    failure it holds whatever logging left there. *)
Theorem synchronizeKernelRCU_calls (st : KernelRCU.SysState) :
  (forall fd, the_socket = KernelRCU.sys_ok fd ->
     KernelRCU.issued (snd (run st)) =
       KernelRCU.issued st ++ [pf_key_socket; KernelRCU.sys_close fd]) /\
  (forall e, the_socket = KernelRCU.sys_fail e ->
     KernelRCU.issued (snd (run st)) = KernelRCU.issued st ++ [pf_key_socket] /\
     KernelRCU.errno (snd (run st)) = ALOGE e) /\
  (forall fd e, the_socket = KernelRCU.sys_ok fd ->
     os_close fd = KernelRCU.sys_fail e ->
     KernelRCU.errno (snd (run st)) = ALOGE e) /\
  (fst (run st) = 0 -> KernelRCU.errno (snd (run st)) = KernelRCU.errno st).
Proof.
  unfold KernelRCU.synchronizeKernelRCU, KernelRCU.socket, KernelRCU.close.
  destruct the_socket as [fd|e] eqn:Es.
  - pose proof (socket_fd _ _ _ _ Es) as Hfd.
    destruct (Z.ltb_spec fd 0) as [Hlt|_]; [lia|].
    destruct (os_close fd) as [v|e] eqn:Ec;
      cbn [fst snd negb Z.eqb KernelRCU.errno KernelRCU.issued KernelRCU.log_error].
    + split; [intros fd' E; inversion E; subst; now rewrite <- app_assoc|].
      split; [intros e E; discriminate E|].
      split; [intros fd' e E E'; inversion E; subst; congruence | reflexivity].
    + pose proof (close_err _ _ Ec) as He. rewrite (wrap_int_neg e He).
      split; [intros fd' E; inversion E; subst; now rewrite <- app_assoc|].
      split; [intros e' E; discriminate E|].
      split; [intros fd' e' E E'; inversion E; subst; congruence | lia].
  - pose proof (socket_err _ _ _ _ Es) as He.
    cbn [fst snd Z.ltb Z.compare KernelRCU.errno KernelRCU.issued KernelRCU.log_error].
    rewrite (wrap_int_neg e He).
    split; [intros fd E; discriminate E|].
    split; [intros e' E; inversion E; subst; split; reflexivity|].
    split; [intros fd e' E; discriminate E | lia].
Qed.
End KernelRCUFacts.

Lemma synchronizeKernelRCU_result_witness :
  fst (KernelRCU.synchronizeKernelRCU socket_unsupported close_fine (fun _ => 0) sys0)
  = -97 /\
  fst (KernelRCU.synchronizeKernelRCU socket_fine close_interrupted (fun _ => 0) sys0)
  = -4.
Proof.
  split.
  - refine (proj1 (synchronizeKernelRCU_result socket_unsupported close_fine
                     (fun _ => 0) _ _ _ sys0) 97 eq_refl).
    + intros d t p fd E. discriminate E.
    + intros d t p e E. inversion E. lia.
    + intros fd e E. discriminate E.
  - refine (proj1 (proj2 (synchronizeKernelRCU_result socket_fine close_interrupted
                            (fun _ => 0) _ _ _ sys0)) 7 4 eq_refl eq_refl).
    + intros d t p fd E. inversion E. lia.
    + intros d t p e E. discriminate E.
    + intros fd e E. inversion E. lia.
Defined.

Lemma synchronizeKernelRCU_calls_witness :
  KernelRCU.issued
    (snd (KernelRCU.synchronizeKernelRCU socket_fine close_interrupted (fun _ => 0) sys0))
  = [KernelRCU.sys_socket 15 524291 2; KernelRCU.sys_close 7].
Proof.
  refine (proj1 (synchronizeKernelRCU_calls socket_fine close_interrupted
                   (fun _ => 0) _ _ _ sys0) 7 eq_refl).
  - intros d t p fd E. inversion E. lia.
  - intros d t p e E. discriminate E.
  - intros fd e E. inversion E. lia.
Defined.

(** ** Splitting a batch *)

Lemma keys_ctx_accumulate_In (l : list PacketTrace) (x : AGG_TUPLE) :
  In x (keys_ctx (accumulate l)) <-> In x (map AGG_FIELDS l).
Proof.
  pose proof (accumulate_accumulated l) as [ND EN CO]. split.
  - intros Hx. apply in_keys_ctx in Hx. destruct Hx as [[k d] [Hin <-]].
    apply in_map. apply (EN k d Hin).
  - intros Hx. apply in_map_iff in Hx. destruct Hx as [q [<- Hq]]. now apply CO.
Qed.

Lemma accumulate_length_keys (l : list PacketTrace) :
  List.length (accumulate l) = List.length (keys_ctx (accumulate l)).
Proof. unfold keys_ctx. now rewrite length_map. Qed.

Section SplitBatch.
Variable if_indextoname : Z -> option string.
Variable iteration_order : Bundles -> Bundles.
Hypothesis iteration_order_perm : forall m, Permutation (iteration_order m) m.

Local Abbreviation Write' := (Write if_indextoname iteration_order).

(** X18 (splitting a batch): handing the records over in two batches
    instead of one never gives fewer messages, and the first part alone
    never gives more messages than the whole; in direct mode the messages
    of the whole are those of the two parts, one after the other. *)
Theorem split_batch (self : NetworkTraceHandler) (a b : list PacketTrace) :
  (List.length (Write' self (a ++ b))
   <= List.length (Write' self a) + List.length (Write' self b))%nat /\
  (List.length (Write' self a) <= List.length (Write' self (a ++ b)))%nat /\
  (bundlingEnabled self = false ->
   Write' self (a ++ b) = Write' self a ++ Write' self b).
Proof.
  unfold Write.
  destruct ((mInternLimit self =? 0) && (mAggregationThreshold self =? 0)) eqn:E.
  - rewrite !length_map, map_app, length_app. split; [lia|]. split; [lia|reflexivity].
  - assert (Hb : bundlingEnabled self = true).
    { unfold bundlingEnabled.
      destruct (mInternLimit self =? 0), (mAggregationThreshold self =? 0);
        simpl in *; congruence. }
    rewrite !length_map, !(Permutation_length (iteration_order_perm _)).
    rewrite !accumulate_length_keys.
    pose proof (acc_nodup _ _ (accumulate_accumulated (a ++ b))) as NDab.
    pose proof (acc_nodup _ _ (accumulate_accumulated a)) as NDa.
    split; [|split; [|congruence]].
    + rewrite <- length_app. apply NoDup_incl_length; [exact NDab|].
      intros x Hx. apply keys_ctx_accumulate_In in Hx. rewrite map_app in Hx.
      apply in_or_app. apply in_app_or in Hx.
      destruct Hx as [Hx|Hx]; [left | right]; now apply keys_ctx_accumulate_In.
    + apply NoDup_incl_length; [exact NDa|].
      intros x Hx. apply keys_ctx_accumulate_In in Hx.
      apply keys_ctx_accumulate_In. rewrite map_app. apply in_or_app. now left.
Qed.
End SplitBatch.

(** The sample batch in one piece gives 2 bundles, in two pieces 2 and 2. *)
Lemma split_batch_witness :
  (List.length (Write resolver0 newest_first handler_bundled batch)
   <= List.length (Write resolver0 newest_first handler_bundled [pkt2; pkt0])
      + List.length (Write resolver0 newest_first handler_bundled [pkt1; pkt5; pkt3]))%nat /\
  List.length (Write resolver0 newest_first handler_bundled batch) = 2%nat /\
  List.length (Write resolver0 newest_first handler_bundled [pkt1; pkt5; pkt3]) = 2%nat.
Proof.
  split.
  - exact (proj1 (split_batch resolver0 newest_first newest_first_perm
                    handler_bundled [pkt2; pkt0] [pkt1; pkt5; pkt3])).
  - split; vm_compute; reflexivity.
Defined.
